(** * Notes application with webhook notifications

    A shallow embedding of the server side of the notes application:

    - [src/server/webhookService.ts] : [WebhookService.updateWebhook]
    - [src/server/api/routers/webhookEvent.ts] :
        [webhookEventRouter] with [setEvent] and [getEvents], and
        [noteRouter] with [addNote], [updateNote], [findAllNotes],
        [deleteNote] and their helper [updateHost]
    - [src/server/api/routers/webhookInfo.ts] :
        [webhookInfoRouter] with [setWebhookURL] and [findWebhookInto]

    The handlers are [async] functions that talk to a Prisma client, to
    [fetch], to [console.error] and to the clock.  They are embedded as
    computations in a state-and-exception monad over a [World] that holds
    the database tables, the requests handed to [fetch], the console and the
    number of clock reads.  A thrown exception keeps the world as it was at
    the throw: nothing is rolled back, exactly as in JavaScript.

    What the program takes from its platform is a parameter of the
    development (record [Env]): the WHATWG URL parser behind [new URL],
    [JSON.stringify], the identifier generator of the database, what the
    database makes of a text it is given to store, the clock and the answers
    of the network.

    Every router procedure is a [protectedProcedure]: its resolver is typed
    with a non-null session.  The resolvers are therefore embedded over an
    [AuthedContext]; the authentication middleware itself lives in trpc.ts
    and is not part of this development. *)

From stdpp Require Import base decidable option list numbers strings.

Set Default Proof Using "Type".

(** ** JavaScript strings *)

(** A JavaScript string is a sequence of UTF-16 code units. *)
Definition jsstring := list N.

(** An ASCII literal as a JavaScript string. *)
Fixpoint js (s : string) : jsstring :=
  match s with
  | EmptyString => []
  | String c s' => Ascii.N_of_ascii c :: js s'
  end.

(** ECMAScript [WhiteSpace] and [LineTerminator] code points, the characters
    removed by [String.prototype.trim]. *)
Definition is_whitespace (c : N) : bool :=
  ((9 <=? c) && (c <=? 13) || (c =? 32) || (c =? 160) || (c =? 5760)
   || (8192 <=? c) && (c <=? 8202) || (c =? 8232) || (c =? 8233)
   || (c =? 8239) || (c =? 8287) || (c =? 12288) || (c =? 65279))%N.

Fixpoint trimStart (s : jsstring) : jsstring :=
  match s with
  | [] => []
  | c :: s' => if is_whitespace c then trimStart s' else s
  end.

Definition trimEnd (s : jsstring) : jsstring := rev (trimStart (rev s)).

Definition trim (s : jsstring) : jsstring := trimEnd (trimStart s).

(** ** Data model (the Prisma models the routers use) *)

Inductive EventType := NOTE_CREATE | NOTE_READ | NOTE_UPDATE | NOTE_DELETE.

Global Instance EventType_eq_dec : EqDecision EventType.
Proof. solve_decision. Defined.

(** The members' names, as they appear in a serialized payload. *)
Definition EventType_name (t : EventType) : string :=
  match t with
  | NOTE_CREATE => "NOTE_CREATE"
  | NOTE_READ => "NOTE_READ"
  | NOTE_UPDATE => "NOTE_UPDATE"
  | NOTE_DELETE => "NOTE_DELETE"
  end.

Module Note.
(** The fields the routers read or write.  [updatedOn] is a [Date], kept as
    its time value in milliseconds. *)
Record t := mk { ID : jsstring; title : jsstring; data : jsstring; updatedOn : Z }.
End Note.

Module WebhookInfo.
Record t := mk { ID : jsstring; userID : jsstring; hostURL : jsstring }.
End WebhookInfo.

Module WebhookEvent.
Record t := mk { ID : jsstring; webhookInfoID : jsstring; event : EventType; enabled : bool }.
End WebhookEvent.

(** [webhookInfo] rows fetched with [include: { webhookEvents: true }]. *)
Module WebhookInfoWithEvents.
Record t := mk { info : WebhookInfo.t; webhookEvents : list WebhookEvent.t }.
Definition hostURL (r : t) : jsstring := WebhookInfo.hostURL (info r).
End WebhookInfoWithEvents.

(** The tables, in storage order, and the number of identifiers handed out. *)
Record DB := mkDB {
  notes : list Note.t;
  webhookInfos : list WebhookInfo.t;
  webhookEvents : list WebhookEvent.t;
  serial : nat
}.

Definition empty_db : DB := mkDB [] [] [] 0.

(** ** JavaScript values that reach [JSON.stringify] *)

#[warnings="-register-all"]
Inductive JSValue :=
| VNull
| VBool (b : bool)
| VNumber (n : Z)
| VString (s : jsstring)
| VDate (ms : Z)
| VArray (l : list JSValue)
| VObject (fields : list (string * JSValue)).

(** The generic parameter [T] of [updateHost] and [updateWebhook]: anything
    that is a JavaScript value. *)
Class ToJS (T : Type) := to_js : T -> JSValue.

Global Instance Note_ToJS : ToJS Note.t := fun n =>
  VObject [("ID", VString (Note.ID n)); ("title", VString (Note.title n));
           ("data", VString (Note.data n)); ("updatedOn", VDate (Note.updatedOn n))].

Global Instance list_ToJS {T} `{ToJS T} : ToJS (list T) := fun l =>
  VArray (map to_js l).

(** ** Exceptions *)

Inductive TRPC_ERROR_CODE := BAD_REQUEST | UNAUTHORIZED | INTERNAL_SERVER_ERROR.

Inductive Exn :=
| TRPCError (code : TRPC_ERROR_CODE) (message : string)
    (** thrown by a resolver *)
| ZodError
    (** the input parser rejected the input (the spec's ValidationError) *)
| RecordNotFound
    (** Prisma's "record to update/delete does not exist" (the spec's
        NotFoundError) *)
| PrismaClientUnknownRequestError
    (** the database client could not carry out the request: it rejects a
        text that it cannot transmit *)
| InvalidURL (input : jsstring)
    (** the [TypeError] of [new URL] *)
| FetchFailed (reason : string)
    (** the rejection of a [fetch] promise *).

(** ** The outside world *)

Record Request := mkRequest {
  req_url : jsstring;
  req_method : string;
  req_headers : list (string * string);
  req_body : jsstring
}.

Record Response := mkResponse { status : Z; statusText : jsstring }.

(** [Response.ok]: the status is in the range 200-299. *)
Definition ok (r : Response) : bool := ((200 <=? status r) && (status r <=? 299))%Z.

Inductive FetchOutcome := Resolved (r : Response) | Rejected (reason : string).

(** What [console.error] was called with. *)
Inductive LogEntry :=
| LogRequestFailed (status : Z) (statusText : jsstring)
    (** [`Webhook request failed: ${status} ${statusText}`] *)
| LogRequestError (err : Exn)
    (** ["Webhook request error:", err] *).

Record World := mkWorld {
  db : DB;
  outbox : list Request;     (** the requests handed to [fetch], oldest first *)
  console : list LogEntry;   (** the lines written by [console.error] *)
  ticks : nat                (** how often the clock was read *)
}.

Definition set_db (d : DB) (w : World) : World :=
  mkWorld d (outbox w) (console w) (ticks w).

(** The platform. *)
Record Env := mkEnv {
  (** [new URL(s).toString()], or [None] where [new URL(s)] throws *)
  parseURL : jsstring -> option jsstring;
  JSON_stringify : JSValue -> jsstring;
  (** the [n]-th identifier generated by the database *)
  cuid : nat -> jsstring;
  (** the text that the database hands back, in the row that [create]
      returns and in every later read, for a text that [create] is given to
      store; [None] where the database client rejects the text *)
  stored_text : jsstring -> option jsstring;
  (** the result of the [n]-th clock read, in milliseconds since the epoch *)
  clock : nat -> Z;
  (** the answer to the [n]-th request *)
  network : nat -> Request -> FetchOutcome
}.

(** ** The monad of [async] functions *)

Inductive Completion (A : Type) :=
| Return (a : A)
| Throw (e : Exn).
Arguments Return {A} a.
Arguments Throw {A} e.

Definition Async (A : Type) : Type := World -> Completion A * World.

Definition ret {A} (a : A) : Async A := fun w => (Return a, w).

Definition throw {A} (e : Exn) : Async A := fun w => (Throw e, w).

Definition bind {A B} (m : Async A) (k : A -> Async B) : Async B :=
  fun w =>
    match m w with
    | (Return a, w') => k a w'
    | (Throw e, w') => (Throw e, w')
    end.

(** [try { body } catch (err) { handler }] *)
Definition try_catch {A} (body : Async A) (handler : Exn -> Async A) : Async A :=
  fun w =>
    match body w with
    | (Return a, w') => (Return a, w')
    | (Throw e, w') => handler e w'
    end.

Declare Scope async_scope.
Delimit Scope async_scope with async.
Bind Scope async_scope with Async.
Notation "'let*' x := m 'in' k" := (bind m (fun x => k))
  (at level 10, x name, m at level 100, k at level 200) : async_scope.
Notation "m ;; k" := (bind m (fun _ => k))
  (at level 100, k at level 200, right associativity) : async_scope.
Open Scope async_scope.

Definition is_Return {A} (c : Completion A) : bool :=
  match c with Return _ => true | Throw _ => false end.

(** ** The Prisma client *)

(** A row is looked up, updated or deleted through a unique key; on a table
    kept as a list that is the first row that satisfies the [where]. *)
Fixpoint update_first {A} (p : A -> bool) (f : A -> A) (l : list A) : option (A * list A) :=
  match l with
  | [] => None
  | x :: l' =>
      if p x then Some (f x, f x :: l')
      else match update_first p f l' with
           | Some (y, l'') => Some (y, x :: l'')
           | None => None
           end
  end.

Fixpoint delete_first {A} (p : A -> bool) (l : list A) : option (A * list A) :=
  match l with
  | [] => None
  | x :: l' =>
      if p x then Some (x, l')
      else match delete_first p l' with
           | Some (y, l'') => Some (y, x :: l'')
           | None => None
           end
  end.

Definition jsstring_eqb (a b : jsstring) : bool := bool_decide (a = b).

(** [if (note)]: a row returned by Prisma is an object, and every object is
    truthy. *)
Definition truthy {A} (x : A) : bool := true.

(** ** Contexts and inputs of the procedures *)

Module User.
Record t := mk { id : jsstring }.
End User.

Module Session.
Record t := mk { user : User.t }.
End Session.

(** [TRPCContext]: the session may be null.  The [db] handle of the context
    is the [db] of the [World]. *)
Module TRPCContext.
Record t := mk { session : option Session.t }.
End TRPCContext.

(** The context of a [protectedProcedure] resolver: the session is there. *)
Module AuthedContext.
Record t := mk { session : Session.t }.
Definition upcast (ctx : t) : TRPCContext.t := TRPCContext.mk (Some (session ctx)).
(** [ctx.session.user.id] *)
Definition userId (ctx : t) : jsstring := User.id (Session.user (session ctx)).
End AuthedContext.

Module UpdateNoteInput.
Record t := mk { ID : jsstring; data : jsstring }.
End UpdateNoteInput.

Module SetEventInput.
Record t := mk { event : EventType; enabled : bool }.
End SetEventInput.

Section Server.
Context (env : Env).

(** A database call: a pure transition of the tables that may fail. *)
Definition db_call {A} (f : DB -> Exn + (A * DB)) : Async A :=
  fun w =>
    match f (db w) with
    | inl e => (Throw e, w)
    | inr (a, d) => (Return a, set_db d w)
    end.

(** [new Date()] and [Date.now()]: one read of the clock. *)
Definition Date_now : Async Z :=
  fun w => (Return (clock env (ticks w)),
            mkWorld (db w) (outbox w) (console w) (S (ticks w))).

Definition console_error (e : LogEntry) : Async unit :=
  fun w => (Return tt, mkWorld (db w) (outbox w) (console w ++ [e]) (ticks w)).

(** [new URL(url)] followed by [urlObj.toString()]. *)
Definition new_URL (url : jsstring) : Async jsstring :=
  match parseURL env url with
  | Some href => ret href
  | None => throw (InvalidURL url)
  end.

(** [fetch]: the request leaves, and the promise resolves with a response
    or rejects. *)
Definition fetch (r : Request) : Async Response :=
  fun w =>
    let w' := mkWorld (db w) (outbox w ++ [r]) (console w) (ticks w) in
    match network env (length (outbox w)) r with
    | Resolved res => (Return res, w')
    | Rejected reason => (Throw (FetchFailed reason), w')
    end.

(** *** [ctx.db.note] *)

(** [create] returns the row as the database hands it back, not the
    argument: the caller's [data] comes back as [stored_text] has it, and a
    text that the client rejects makes the call throw with nothing stored.
    The title is a literal of plain characters and comes back as it is.
    The table holds the rows as a read returns them. *)
Definition note_create (data title : jsstring) (updatedOn : Z) : Async Note.t :=
  db_call (fun d =>
    match stored_text env data with
    | Some data' =>
        let n := Note.mk (cuid env (serial d)) title data' updatedOn in
        inr (n, mkDB (notes d ++ [n]) (webhookInfos d) (webhookEvents d) (S (serial d)))
    | None => inl PrismaClientUnknownRequestError
    end).

(** [update] and [delete] look the row up by its identifier; [update] is
    taken on texts that the database keeps as they are given. *)
Definition note_update (id : jsstring) (data : jsstring) : Async Note.t :=
  db_call (fun d =>
    match update_first (fun n => jsstring_eqb (Note.ID n) id)
            (fun n => Note.mk (Note.ID n) (Note.title n) data (Note.updatedOn n))
            (notes d) with
    | Some (n, ns) => inr (n, mkDB ns (webhookInfos d) (webhookEvents d) (serial d))
    | None => inl RecordNotFound
    end).

Definition note_findMany : Async (list Note.t) :=
  db_call (fun d => inr (notes d, d)).

Definition note_delete (id : jsstring) : Async Note.t :=
  db_call (fun d =>
    match delete_first (fun n => jsstring_eqb (Note.ID n) id) (notes d) with
    | Some (n, ns) => inr (n, mkDB ns (webhookInfos d) (webhookEvents d) (serial d))
    | None => inl RecordNotFound
    end).

(** *** [ctx.db.webhookInfo] *)

(** The rows that [include: { webhookEvents: true }] joins to a
    configuration.  The query asks for no order; the rows are taken in the
    order of the table, and no property below depends on that order. *)
Definition events_of (d : DB) (i : WebhookInfo.t) : list WebhookEvent.t :=
  filter (fun e => WebhookEvent.webhookInfoID e = WebhookInfo.ID i) (webhookEvents d).

Definition find_info (d : DB) (userID : jsstring) : option WebhookInfo.t :=
  List.find (fun i => jsstring_eqb (WebhookInfo.userID i) userID) (webhookInfos d).

(** [findUnique({ where: { userID } })], also with [select: { ID: true }]
    (the caller then reads [ID] only). *)
Definition webhookInfo_findUnique (userID : jsstring) : Async (option WebhookInfo.t) :=
  db_call (fun d => inr (find_info d userID, d)).

(** [findUnique] and [findFirst] with [include: { webhookEvents: true }]. *)
Definition webhookInfo_find_include (userID : jsstring)
  : Async (option WebhookInfoWithEvents.t) :=
  db_call (fun d =>
    inr (match find_info d userID with
         | Some i => Some (WebhookInfoWithEvents.mk i (events_of d i))
         | None => None
         end, d)).

(** [upsert({ where: { userID }, update: { hostURL }, create: { userID,
    hostURL }, include: { webhookEvents: true } })] *)
Definition webhookInfo_upsert (userID hostURL : jsstring)
  : Async WebhookInfoWithEvents.t :=
  db_call (fun d =>
    match update_first (fun i => jsstring_eqb (WebhookInfo.userID i) userID)
            (fun i => WebhookInfo.mk (WebhookInfo.ID i) (WebhookInfo.userID i) hostURL)
            (webhookInfos d) with
    | Some (i, infos) =>
        let d' := mkDB (notes d) infos (webhookEvents d) (serial d) in
        inr (WebhookInfoWithEvents.mk i (events_of d' i), d')
    | None =>
        let i := WebhookInfo.mk (cuid env (serial d)) userID hostURL in
        let d' := mkDB (notes d) (webhookInfos d ++ [i]) (webhookEvents d) (S (serial d)) in
        inr (WebhookInfoWithEvents.mk i (events_of d' i), d')
    end).

(** *** [ctx.db.webhookEvent] *)

(** [upsert({ where: { webhookInfoID_event: { webhookInfoID, event } },
    update: { enabled }, create: { webhookInfoID, event, enabled } })] *)
Definition webhookEvent_upsert (webhookInfoID : jsstring) (event : EventType)
    (enabled : bool) : Async WebhookEvent.t :=
  db_call (fun d =>
    match update_first
            (fun e => jsstring_eqb (WebhookEvent.webhookInfoID e) webhookInfoID
                      && bool_decide (WebhookEvent.event e = event))
            (fun e => WebhookEvent.mk (WebhookEvent.ID e) (WebhookEvent.webhookInfoID e)
                        (WebhookEvent.event e) enabled)
            (webhookEvents d) with
    | Some (e, es) => inr (e, mkDB (notes d) (webhookInfos d) es (serial d))
    | None =>
        let e := WebhookEvent.mk (cuid env (serial d)) webhookInfoID event enabled in
        inr (e, mkDB (notes d) (webhookInfos d) (webhookEvents d ++ [e]) (S (serial d)))
    end).

(** ** [WebhookService.updateWebhook] *)

Definition updateWebhook {T} `{ToJS T} (url : jsstring) (type : EventType) (data : T)
  : Async unit :=
  let* urlObj := new_URL url in
  try_catch
    (let* now := Date_now in
     let* res := fetch (mkRequest urlObj "POST"
                          [("Content-Type", "application/json")]
                          (JSON_stringify env
                             (VObject [("type", VString (js (EventType_name type)));
                                       ("timestamp", VNumber now);
                                       ("data", to_js data)]))) in
     if negb (ok res)
     then console_error (LogRequestFailed (status res) (statusText res))
     else ret tt)
    (fun err => console_error (LogRequestError err)).

(** ** The routers *)

(** The zod schemas of the procedures' inputs: [None] where parsing fails,
    the parsed (trimmed) value otherwise. *)

(** [z.string().trim().min(n)] *)
Definition z_string_trim_min (n : nat) (input : jsstring) : option jsstring :=
  let s := trim input in
  if (n <=? length s)%nat then Some s else None.

(** [z.string().url()]: accepted when [new URL] accepts it *)
Definition z_string_url (input : jsstring) : option jsstring :=
  match parseURL env input with
  | Some _ => Some input
  | None => None
  end.

(** [.input(schema).mutation(resolver)] and [.input(schema).query(resolver)]:
    the raw input is parsed; a rejected input never reaches the resolver. *)
Definition procedure {I O A} (schema : I -> option O)
    (resolver : AuthedContext.t -> O -> Async A) (ctx : AuthedContext.t) (raw : I)
  : Async A :=
  match schema raw with
  | Some input => resolver ctx input
  | None => throw ZodError
  end.

(** *** [noteRouter] *)

(** The [for ... of] loop of [updateHost], with its [return] at the first
    enabled entry of the event. *)
Fixpoint updateHost_loop {T} `{ToJS T} (hostURL : jsstring) (type : EventType)
    (data : T) (events : list WebhookEvent.t) : Async unit :=
  match events with
  | [] => ret tt
  | eventInfo :: rest =>
      if bool_decide (WebhookEvent.event eventInfo = type) && WebhookEvent.enabled eventInfo
      then updateWebhook hostURL type data
      else updateHost_loop hostURL type data rest
  end.

Definition updateHost {T} `{ToJS T} (ctx : TRPCContext.t) (type : EventType) (data : T)
  : Async unit :=
  match TRPCContext.session ctx with
  | None => ret tt
  | Some session =>
      let* webhookInfo := webhookInfo_find_include (User.id (Session.user session)) in
      match webhookInfo with
      | None => ret tt
      | Some webhookInfo =>
          updateHost_loop (WebhookInfoWithEvents.hostURL webhookInfo) type data
            (WebhookInfoWithEvents.webhookEvents webhookInfo)
      end
  end.

Definition addNote : AuthedContext.t -> jsstring -> Async Note.t :=
  procedure (z_string_trim_min 1) (fun ctx input =>
    let* updatedOn := Date_now in
    let* note := note_create input (js "Some title") updatedOn in
    updateHost (AuthedContext.upcast ctx) NOTE_CREATE note;;
    ret note).

Definition updateNote : AuthedContext.t -> UpdateNoteInput.t -> Async bool :=
  procedure
    (fun raw =>
       match z_string_trim_min 2 (UpdateNoteInput.data raw) with
       | Some data => Some (UpdateNoteInput.mk (trim (UpdateNoteInput.ID raw)) data)
       | None => None
       end)
    (fun ctx input =>
       let success := false in
       let* note := note_update (UpdateNoteInput.ID input) (UpdateNoteInput.data input) in
       updateHost (AuthedContext.upcast ctx) NOTE_UPDATE note;;
       let success := if truthy note then true else success in
       ret success).

Definition findAllNotes (ctx : AuthedContext.t) : Async (list Note.t) :=
  let* foundNotes := note_findMany in
  updateHost (AuthedContext.upcast ctx) NOTE_READ foundNotes;;
  ret foundNotes.

Definition deleteNote : AuthedContext.t -> jsstring -> Async bool :=
  procedure (z_string_trim_min 1) (fun ctx input =>
    let success := false in
    let* note := note_delete input in
    let success := if truthy note then true else success in
    updateHost (AuthedContext.upcast ctx) NOTE_DELETE note;;
    ret success).

(** *** [webhookEventRouter] *)

Definition setEvent : AuthedContext.t -> SetEventInput.t -> Async WebhookEvent.t :=
  procedure Some (fun ctx input =>
    let userId := AuthedContext.userId ctx in
    let* info := webhookInfo_findUnique userId in
    match info with
    | None => throw (TRPCError BAD_REQUEST "Webhook host not configured")
    | Some info =>
        let* row := webhookEvent_upsert (WebhookInfo.ID info)
                      (SetEventInput.event input) (SetEventInput.enabled input) in
        ret row
    end).

Definition getEvents (ctx : AuthedContext.t) : Async (list WebhookEvent.t) :=
  let userId := AuthedContext.userId ctx in
  let* info := webhookInfo_find_include userId in
  match info with
  | None => ret []
  | Some info => ret (WebhookInfoWithEvents.webhookEvents info)
  end.

(** *** [webhookInfoRouter] *)

Definition setWebhookURL : AuthedContext.t -> jsstring -> Async WebhookInfoWithEvents.t :=
  procedure z_string_url (fun ctx input =>
    let userID := AuthedContext.userId ctx in
    let* record := webhookInfo_upsert userID input in
    ret record).

Definition findWebhookInto (ctx : AuthedContext.t) : Async (option WebhookInfo.t) :=
  webhookInfo_findUnique (AuthedContext.userId ctx).

End Server.

(** ** Vocabulary of the properties *)

(** The test of the loop in [updateHost]. *)
Definition wanted (type : EventType) (e : WebhookEvent.t) : bool :=
  bool_decide (WebhookEvent.event e = type) && WebhookEvent.enabled e.

(** The user has a webhook configuration that contains an enabled setting
    of the event. *)
Definition has_enabled_setting (d : DB) (userID : jsstring) (type : EventType) : Prop :=
  ∃ i e, i ∈ webhookInfos d ∧ WebhookInfo.userID i = userID ∧
         e ∈ webhookEvents d ∧ WebhookEvent.webhookInfoID e = WebhookInfo.ID i ∧
         WebhookEvent.event e = type ∧ WebhookEvent.enabled e = true.

(** The same, the way [updateHost] computes it. *)
Definition subscribed (d : DB) (userID : jsstring) (type : EventType) : bool :=
  match find_info d userID with
  | Some i => existsb (wanted type) (events_of d i)
  | None => false
  end.

(** The user has no webhook configuration. *)
Definition no_config (d : DB) (userID : jsstring) : Prop :=
  ∀ i, i ∈ webhookInfos d → WebhookInfo.userID i ≠ userID.


(** What [updateWebhook] writes to the console for an answer of the
    network. *)
Definition logged (o : FetchOutcome) : list LogEntry :=
  match o with
  | Resolved res => if ok res then [] else [LogRequestFailed (status res) (statusText res)]
  | Rejected reason => [LogRequestError (FetchFailed reason)]
  end.

(** The request of a notification: what [updateWebhook] hands to [fetch]
    for the serialized URL [href], at clock value [now]. *)
Definition notification (env : Env) (href : jsstring) (type : EventType) (now : Z)
    (data : JSValue) : Request :=
  mkRequest href "POST" [("Content-Type", "application/json")]
    (JSON_stringify env
       (VObject [("type", VString (js (EventType_name type)));
                 ("timestamp", VNumber now);
                 ("data", data)])).

(** The world after one notification has been attempted. *)
Definition delivered (env : Env) (href : jsstring) (type : EventType) (data : JSValue)
    (w : World) : World :=
  let r := notification env href type (clock env (ticks w)) data in
  mkWorld (db w) (outbox w ++ [r])
    (console w ++ logged (network env (length (outbox w)) r)) (S (ticks w)).

(** The world after [updateHost], where the stored URL is well formed. *)
Definition notified (env : Env) (userID : jsstring) (type : EventType) (data : JSValue)
    (w : World) : World :=
  match find_info (db w) userID with
  | Some i =>
      if existsb (wanted type) (events_of (db w) i) then
        match parseURL env (WebhookInfo.hostURL i) with
        | Some href => delivered env href type data w
        | None => w
        end
      else w
  | None => w
  end.

(** The requests an operation handed to [fetch]. *)
Definition sent {A} (op : Async A) (w : World) : list Request :=
  drop (length (outbox w)) (outbox (snd (op w))).

(** The world once [ctx.db.note.create] has stored [note], the clock having
    been read for [updatedOn]. *)
Definition created (note : Note.t) (w : World) : World :=
  mkWorld (mkDB (notes (db w) ++ [note]) (webhookInfos (db w)) (webhookEvents (db w))
             (S (serial (db w))))
    (outbox w) (console w) (S (ticks w)).

(** The world once the clock has been read and nothing else has happened:
    what a rejected [create] leaves, [new Date()] being evaluated before the
    call. *)
Definition clock_read (w : World) : World :=
  mkWorld (db w) (outbox w) (console w) (S (ticks w)).

(** The world once the [note] table has become [ns]. *)
Definition with_notes (ns : list Note.t) (w : World) : World :=
  set_db (mkDB ns (webhookInfos (db w)) (webhookEvents (db w)) (serial (db w))) w.

(** [await updateHost(...); return a]. *)
Definition and_then {A} (r : Completion unit * World) (a : A) : Completion A * World :=
  match r with
  | (Return _, w') => (Return a, w')
  | (Throw e, w') => (Throw e, w')
  end.

(** An operation hands at most one request to [fetch], and hands one exactly
    when it returns and the user has enabled the event. *)
Definition notifies_iff_enabled {A} (op : Async A) (userID : jsstring) (type : EventType)
    (w : World) : Prop :=
  length (sent op w) ≤ 1 ∧
  (length (sent op w) = 1 ↔
   is_Return (fst (op w)) = true ∧ has_enabled_setting (db w) userID type).


(** An operation returns [result] and leaves the tables [stored], whatever
    the network answers: it hands at most one request to [fetch], and the
    answer shows on the console only. *)
Definition survives {A} (env : Env) (op : Async A) (w : World) (result : A) (stored : DB)
  : Prop :=
  fst (op w) = Return result ∧
  db (snd (op w)) = stored ∧
  ∃ requests,
    outbox (snd (op w)) = outbox w ++ requests ∧
    length requests ≤ 1 ∧
    console (snd (op w))
    = console w ++ flat_map (fun r => logged (network env (length (outbox w)) r)) requests.

(** The unique keys of the tables. *)
Definition event_key (e : WebhookEvent.t) : jsstring * EventType :=
  (WebhookEvent.webhookInfoID e, WebhookEvent.event e).

(** The [where] of the upsert in [setEvent]: the row of the key. *)
Definition event_where (webhookInfoID : jsstring) (event : EventType)
    (e : WebhookEvent.t) : bool :=
  jsstring_eqb (WebhookEvent.webhookInfoID e) webhookInfoID
  && bool_decide (WebhookEvent.event e = event).

(** *** Invariants of the store *)

(** At most one [webhookInfo] row per user. *)
Definition unique_users (d : DB) : Prop :=
  NoDup (map WebhookInfo.userID (webhookInfos d)).

(** At most one [webhookEvent] row per configuration and event. *)
Definition unique_event_keys (d : DB) : Prop :=
  NoDup (map event_key (webhookEvents d)).

(** Every [webhookEvent] row belongs to a stored configuration. *)
Definition events_owned (d : DB) : Prop :=
  ∀ e, e ∈ webhookEvents d →
       ∃ i, i ∈ webhookInfos d ∧ WebhookInfo.ID i = WebhookEvent.webhookInfoID e.

(** Every stored URL is one that [new URL] accepts. *)
Definition urls_parse (env : Env) (d : DB) : Prop :=
  ∀ i, i ∈ webhookInfos d → is_Some (parseURL env (WebhookInfo.hostURL i)).

Record store_ok (env : Env) (d : DB) : Prop := mk_store_ok {
  ok_users : unique_users d;
  ok_event_keys : unique_event_keys d;
  ok_owned : events_owned d;
  ok_urls : urls_parse env d
}.

(** *** Sequences of calls *)

Inductive Call :=
| SetWebhookURL (ctx : AuthedContext.t) (url : jsstring)
| FindWebhookInto (ctx : AuthedContext.t)
| SetEvent (ctx : AuthedContext.t) (input : SetEventInput.t)
| GetEvents (ctx : AuthedContext.t)
| AddNote (ctx : AuthedContext.t) (body : jsstring)
| UpdateNote (ctx : AuthedContext.t) (input : UpdateNoteInput.t)
| FindAllNotes (ctx : AuthedContext.t)
| DeleteNote (ctx : AuthedContext.t) (id : jsstring).

(** The world after a call, whether it returned or threw. *)
Definition perform (env : Env) (w : World) (c : Call) : World :=
  match c with
  | SetWebhookURL ctx url => snd (setWebhookURL env ctx url w)
  | FindWebhookInto ctx => snd (findWebhookInto ctx w)
  | SetEvent ctx input => snd (setEvent env ctx input w)
  | GetEvents ctx => snd (getEvents ctx w)
  | AddNote ctx body => snd (addNote env ctx body w)
  | UpdateNote ctx input => snd (updateNote env ctx input w)
  | FindAllNotes ctx => snd (findAllNotes env ctx w)
  | DeleteNote ctx id => snd (deleteNote env ctx id w)
  end.

Definition perform_all (env : Env) (w : World) (calls : list Call) : World :=
  fold_left (perform env) calls w.

Definition initial_world : World := mkWorld empty_db [] [] 0.

(** *** A concrete platform, to run the model *)

(** A stand-in for the URL parser: it accepts what starts with ["https://"]
    and gives it back unchanged. *)
Definition sample_parseURL (s : jsstring) : option jsstring :=
  if bool_decide (take 8 s = js "https://") then Some s else None.

(** A stand-in for [JSON.stringify] that only tells the kinds of values
    apart. *)
Definition sample_stringify (v : JSValue) : jsstring :=
  match v with
  | VNull => js "null"
  | VBool b => if b then js "true" else js "false"
  | VNumber _ => js "0"
  | VString s => s
  | VDate _ => js "date"
  | VArray _ => js "[]"
  | VObject _ => js "{}"
  end.

Definition sample_cuid (n : nat) : jsstring := js "c" ++ replicate n 49%N.

(** A stand-in for the database's handling of text: a text with an unpaired
    surrogate is rejected, and a text comes back up to its first U+0000. *)
Definition is_high_surrogate (c : N) : bool := ((55296 <=? c) && (c <=? 56319))%N.
Definition is_low_surrogate (c : N) : bool := ((56320 <=? c) && (c <=? 57343))%N.

Fixpoint well_formed (s : jsstring) : bool :=
  match s with
  | [] => true
  | c :: s' =>
      if is_high_surrogate c then
        match s' with
        | d :: s'' => is_low_surrogate d && well_formed s''
        | [] => false
        end
      else negb (is_low_surrogate c) && well_formed s'
  end.

Fixpoint until_nul (s : jsstring) : jsstring :=
  match s with
  | [] => []
  | c :: s' => if (c =? 0)%N then [] else c :: until_nul s'
  end.

Definition sample_stored_text (s : jsstring) : option jsstring :=
  if well_formed s then Some (until_nul s) else None.

Definition sample_clock (n : nat) : Z := 1700000000000 + Z.of_nat n.

(** A platform whose network answers every request with [o]. *)
Definition sample_env (o : FetchOutcome) : Env :=
  mkEnv sample_parseURL sample_stringify sample_cuid sample_stored_text sample_clock
    (fun _ _ => o).

Definition http_200 : FetchOutcome := Resolved (mkResponse 200 (js "OK")).
Definition http_500 : FetchOutcome := Resolved (mkResponse 500 (js "Internal Server Error")).

Definition alice : AuthedContext.t :=
  AuthedContext.mk (Session.mk (User.mk (js "alice"))).

(** Alice has configured [https://example.com/hook] and enabled
    [NOTE_CREATE] only. *)
Definition alice_world (o : FetchOutcome) : World :=
  perform_all (sample_env o) initial_world
    [SetWebhookURL alice (js "https://example.com/hook");
     SetEvent alice (SetEventInput.mk NOTE_CREATE true);
     SetEvent alice (SetEventInput.mk NOTE_DELETE false)].

(** ** The client: [HomeComponent] *)

(** The parts of the component that compute: the guards of its buttons, the
    payloads it sends, the checkboxes it derives from [getEvents] and the
    updaters it applies to its list of notes. *)
Module HomeComponent.

(** A string in a condition: only the empty string is falsy. *)
Definition truthy_string (s : jsstring) : bool :=
  match s with
  | [] => false
  | _ :: _ => true
  end.

(** [!!events.find((e) => e.event === type)?.enabled] *)
Definition event_toggle (events : list WebhookEvent.t) (type : EventType) : bool :=
  match List.find (fun e => bool_decide (WebhookEvent.event e = type)) events with
  | Some e => WebhookEvent.enabled e
  | None => false
  end.

(** The "Save Note" button: [disabled={createNote.isPending || !note.trim()}]
    and [if (note.trim()) createNote.mutate(note.trim())]; [None] where
    nothing is sent. *)
Definition saveNote_disabled (isPending : bool) (note : jsstring) : bool :=
  isPending || negb (truthy_string (trim note)).

Definition saveNote_onClick (note : jsstring) : option jsstring :=
  if truthy_string (trim note) then Some (trim note) else None.

(** The "Set Webhook URL" button, with the same shape. *)
Definition setURL_onClick (url : jsstring) : option jsstring :=
  if truthy_string (trim url) then Some (trim url) else None.

(** The "Save" button of a note in edit mode:
    [disabled={update.isPending || text.trim().length < 2}] and
    [update.mutate({ ID: note.ID, data: text.trim() })]. *)
Definition save_disabled (isPending : bool) (text : jsstring) : bool :=
  isPending || (length (trim text) <? 2)%nat.

Definition save_onClick (note : Note.t) (text : jsstring) : UpdateNoteInput.t :=
  UpdateNoteInput.mk (Note.ID note) (trim text).

(** A checkbox: [onChange={() => onToggle(!value)}], and [onToggle] sends
    [{ event, enabled: next }]. *)
Definition checkbox_onChange (type : EventType) (value : bool) : SetEventInput.t :=
  SetEventInput.mk type (negb value).

(** The updaters of the list of notes. *)






End HomeComponent.

(** ** More vocabulary *)

(** The note with its [data] replaced: the [data: { data }] of the update. *)
Definition set_data (data : jsstring) (n : Note.t) : Note.t :=
  Note.mk (Note.ID n) (Note.title n) data (Note.updatedOn n).

(** Every identifier stored in the database. *)
Definition all_ids (d : DB) : list jsstring :=
  map Note.ID (notes d) ++ map WebhookInfo.ID (webhookInfos d)
  ++ map WebhookEvent.ID (webhookEvents d).

(** The identifiers in use are distinct, and each was handed out by the
    generator before now. *)
Definition ids_ok (env : Env) (d : DB) : Prop :=
  NoDup (all_ids d) ∧
  ∀ id, id ∈ all_ids d → ∃ k, k < serial d ∧ id = cuid env k.

(** What the development asks of the identifier generator: it never repeats
    itself, and its identifiers are not empty and carry no white space at
    either end, so that the procedures' schemas leave them alone. *)
Record cuid_ok (env : Env) : Prop := mk_cuid_ok {
  cuid_inj : ∀ m n, cuid env m = cuid env n → m = n;
  cuid_trim : ∀ n, trim (cuid env n) = cuid env n;
  cuid_nonempty : ∀ n, cuid env n ≠ []
}.

(** A string without white space at either end. *)
Definition trimmed (s : jsstring) : Prop :=
  (∀ c s', s = c :: s' → is_whitespace c = false) ∧
  (∀ c s', s = s' ++ [c] → is_whitespace c = false).

(** Nothing left the server and nothing was logged; the clock was not
    read. *)
Definition silent (w w' : World) : Prop :=
  outbox w' = outbox w ∧ console w' = console w ∧ ticks w' = ticks w.

(** The webhook tables are those of before. *)
Definition same_webhook_tables (w w' : World) : Prop :=
  webhookInfos (db w') = webhookInfos (db w) ∧
  webhookEvents (db w') = webhookEvents (db w).

(** *** More worlds to run the model in *)

Definition bob : AuthedContext.t :=
  AuthedContext.mk (Session.mk (User.mk (js "bob"))).

(** Alice's world, two notes later. *)
Definition notes_calls : list Call :=
  [SetWebhookURL alice (js "https://example.com/hook");
   SetEvent alice (SetEventInput.mk NOTE_CREATE true);
   SetEvent alice (SetEventInput.mk NOTE_DELETE false);
   AddNote alice (js "first note"); AddNote bob (js "second note")].

Definition notes_world (o : FetchOutcome) : World :=
  perform_all (sample_env o) initial_world notes_calls.

(** A store that was not filled through [setWebhookURL]: Alice's
    configuration holds a string that [new URL] rejects, and [NOTE_CREATE]
    and [NOTE_DELETE] are enabled. *)
Definition broken_world : World :=
  mkWorld
    (mkDB [Note.mk (js "c11") (js "Some title") (js "old") 0]
       [WebhookInfo.mk (js "c") (js "alice") (js "example.com")]
       [WebhookEvent.mk (js "c1") (js "c") NOTE_CREATE true;
        WebhookEvent.mk (js "c111") (js "c") NOTE_DELETE true]
       4)
    [] [] 0.

(** * Properties *)

(** ** Rows found and changed through a unique key *)

Section Tables.
Context {A : Type}.
Implicit Types (p : A -> bool) (f : A -> A) (l : list A).

Lemma update_first_None p f l :
  update_first p f l = None ↔ Forall (fun x => p x = false) l.
Proof.
  induction l as [|x l IH]; simpl.
  - split; [constructor | done].
  - destruct (p x) eqn:Hp.
    + split; [done | inversion 1; congruence].
    + destruct (update_first p f l) as [[y l']|].
      * split; [done | inversion 1 as [|? ? _ Hl]; subst; by apply IH in Hl].
      * split; [intros _; constructor; [done | by apply IH] | done].
Qed.

(** A successful update rewrites the first row that satisfies the [where]
    and nothing else. *)
Lemma update_first_Some p f l y l' :
  update_first p f l = Some (y, l') →
  ∃ l1 x l2, l = l1 ++ x :: l2 ∧ Forall (fun z => p z = false) l1 ∧
             p x = true ∧ y = f x ∧ l' = l1 ++ f x :: l2.
Proof.
  revert l'. induction l as [|x l IH]; simpl; intros l' H; [done|].
  destruct (p x) eqn:Hp.
  - injection H as <- <-. exists [], x, l. by repeat split.
  - destruct (update_first p f l) as [[y0 l0]|] eqn:E; [|done].
    injection H as <- <-.
    destruct (IH _ eq_refl) as (l1 & x0 & l2 & -> & H1 & H2 & -> & ->).
    exists (x :: l1), x0, l2. repeat split; try done. by constructor.
Qed.

Lemma delete_first_None p l :
  delete_first p l = None ↔ Forall (fun x => p x = false) l.
Proof.
  induction l as [|x l IH]; simpl.
  - split; [constructor | done].
  - destruct (p x) eqn:Hp.
    + split; [done | inversion 1; congruence].
    + destruct (delete_first p l) as [[y l']|].
      * split; [done | inversion 1 as [|? ? _ Hl]; subst; by apply IH in Hl].
      * split; [intros _; constructor; [done | by apply IH] | done].
Qed.

Lemma find_None p l :
  List.find p l = None ↔ Forall (fun x => p x = false) l.
Proof.
  induction l as [|x l IH]; simpl.
  - split; [constructor | done].
  - destruct (p x) eqn:Hp.
    + split; [done | inversion 1; congruence].
    + rewrite IH. split; [by constructor | by inversion 1].
Qed.

Lemma find_Some_elem p l x : List.find p l = Some x → x ∈ l ∧ p x = true.
Proof.
  induction l as [|y l IH]; simpl; [done|].
  destruct (p y) eqn:Hp.
  - intros [= ->]. split; [left | done].
  - intros H. destruct (IH H). split; [by right | done].
Qed.



Lemma update_first_fmap {B} (g : A -> B) p f l y l' :
  update_first p f l = Some (y, l') →
  (∀ x, g (f x) = g x) → map g l' = map g l.
Proof.
  intros H Hg.
  destruct (update_first_Some _ _ _ _ _ H) as (l1 & x & l2 & -> & _ & _ & -> & ->).
  rewrite !map_app. simpl. by rewrite Hg.
Qed.

(** Rows with distinct keys are told apart by their keys. *)
Lemma NoDup_key_inj {B} (g : A -> B) l x y :
  NoDup (map g l) → x ∈ l → y ∈ l → g x = g y → x = y.
Proof.
  induction l as [|z l IH]; simpl; intros Hnd Hx Hy Hg; [by apply elem_of_nil in Hx|].
  apply NoDup_cons in Hnd as [Hz Hnd].
  apply elem_of_cons in Hx as [->|Hx]; apply elem_of_cons in Hy as [->|Hy]; try done.
  - exfalso. apply Hz. rewrite Hg. apply list_elem_of_fmap. by exists y.
  - exfalso. apply Hz. rewrite <- Hg. apply list_elem_of_fmap. by exists x.
  - by apply IH.
Qed.
End Tables.

(** ** What the service and the notifier do to the world *)

Section Runs.
Context (env : Env).

Lemma set_db_same w : set_db (db w) w = w.
Proof. by destruct w. Qed.

Lemma updateWebhook_run {T} `{ToJS T} url type (data : T) w :
  updateWebhook env url type data w =
    match parseURL env url with
    | Some href => (Return tt, delivered env href type (to_js data) w)
    | None => (Throw (InvalidURL url), w)
    end.
Proof.
  unfold updateWebhook, new_URL, bind, try_catch, delivered, notification.
  destruct (parseURL env url) as [href|]; simpl; [|done].
  unfold fetch, Date_now, bind; simpl.
  destruct (network env _ _) as [res|reason]; simpl.
  - destruct (ok res); simpl; [by rewrite app_nil_r | done].
  - done.
Qed.

(** The loop stops at the first entry it wants: however many entries
    follow, [updateWebhook] is called once. *)
Lemma updateHost_loop_first {T} `{ToJS T} hostURL type (data : T) l1 e l2 :
  Forall (fun e' => wanted type e' = false) l1 →
  wanted type e = true →
  updateHost_loop env hostURL type data (l1 ++ e :: l2)
  = updateWebhook env hostURL type data.
Proof.
  intros H1 He. induction H1 as [|e' l1 He' _ IH]; simpl.
  - unfold wanted in He. by rewrite He.
  - unfold wanted in He'. by rewrite He'.
Qed.

Lemma updateHost_loop_none {T} `{ToJS T} hostURL type (data : T) l :
  Forall (fun e' => wanted type e' = false) l →
  updateHost_loop env hostURL type data l = ret tt.
Proof.
  induction 1 as [|e' l He' _ IH]; simpl; [done|].
  unfold wanted in He'. by rewrite He'.
Qed.

Lemma updateHost_loop_run {T} `{ToJS T} hostURL type (data : T) l :
  updateHost_loop env hostURL type data l
  = if existsb (wanted type) l then updateWebhook env hostURL type data else ret tt.
Proof.
  induction l as [|e l IH]; simpl; [done|].
  unfold wanted at 1. by destruct (_ && _).
Qed.

Lemma updateHost_run {T} `{ToJS T} session type (data : T) w :
  updateHost env (TRPCContext.mk (Some session)) type data w =
    match find_info (db w) (User.id (Session.user session)) with
    | Some i =>
        if existsb (wanted type) (events_of (db w) i)
        then updateWebhook env (WebhookInfo.hostURL i) type data w
        else (Return tt, w)
    | None => (Return tt, w)
    end.
Proof.
  unfold updateHost, webhookInfo_find_include, db_call, bind; simpl.
  rewrite set_db_same.
  destruct (find_info _ _) as [i|]; [|done].
  by rewrite updateHost_loop_run; simpl; destruct (existsb _ _).
Qed.

(** Where the stored URLs are well formed, [updateHost] returns. *)
Lemma updateHost_notified {T} `{ToJS T} ctx type (data : T) w :
  urls_parse env (db w) →
  updateHost env (AuthedContext.upcast ctx) type data w
  = (Return tt, notified env (AuthedContext.userId ctx) type (to_js data) w).
Proof.
  intros Hurls. unfold AuthedContext.upcast. rewrite updateHost_run.
  unfold notified, AuthedContext.userId.
  destruct (find_info _ _) as [i|] eqn:Hi; [|done].
  destruct (existsb _ _); [|done].
  rewrite updateWebhook_run.
  apply find_Some_elem in Hi as [Hi _].
  by destruct (Hurls i Hi) as [href ->].
Qed.

Lemma notified_db userID type data w : db (notified env userID type data w) = db w.
Proof.
  unfold notified. destruct (find_info _ _); [|done].
  destruct (existsb _ _); [|done]. by destruct (parseURL _ _).
Qed.
End Runs.

Section Subscription.
Context (env : Env).

Lemma jsstring_eqb_true a b : jsstring_eqb a b = true ↔ a = b.
Proof. unfold jsstring_eqb. by rewrite bool_decide_eq_true. Qed.

Lemma jsstring_eqb_false a b : jsstring_eqb a b = false ↔ a ≠ b.
Proof. unfold jsstring_eqb. by rewrite bool_decide_eq_false. Qed.

Lemma wanted_true type e :
  wanted type e = true ↔ WebhookEvent.event e = type ∧ WebhookEvent.enabled e = true.
Proof. unfold wanted. by rewrite andb_true_iff, bool_decide_eq_true. Qed.

Lemma find_info_Some d userID i :
  find_info d userID = Some i → i ∈ webhookInfos d ∧ WebhookInfo.userID i = userID.
Proof.
  intros H. apply find_Some_elem in H as [Hi Hp]. by apply jsstring_eqb_true in Hp.
Qed.

Lemma find_info_None d userID : find_info d userID = None ↔ no_config d userID.
Proof.
  unfold find_info, no_config. rewrite find_None, Forall_forall.
  split; intros H i Hi; specialize (H i Hi); by apply jsstring_eqb_false.
Qed.

(** With one configuration per user, [find_info] finds the user's. *)
Lemma find_info_unique d i :
  unique_users d → i ∈ webhookInfos d → find_info d (WebhookInfo.userID i) = Some i.
Proof.
  intros Hnd Hi. destruct (find_info d (WebhookInfo.userID i)) as [i'|] eqn:E.
  - apply find_info_Some in E as [Hi' Hu]. f_equal.
    by apply (NoDup_key_inj WebhookInfo.userID (webhookInfos d)).
  - apply find_info_None in E. by destruct (E i Hi).
Qed.

Lemma elem_of_events_of d i e :
  e ∈ events_of d i ↔
  WebhookEvent.webhookInfoID e = WebhookInfo.ID i ∧ e ∈ webhookEvents d.
Proof. unfold events_of. by rewrite list_elem_of_filter. Qed.

(** [updateHost] looks for what the property names, as long as a user has
    one configuration. *)
Lemma subscribed_iff d userID type :
  unique_users d →
  subscribed d userID type = true ↔ has_enabled_setting d userID type.
Proof.
  intros Hnd. unfold subscribed, has_enabled_setting. split.
  - destruct (find_info d userID) as [i|] eqn:Hi; [|done].
    apply find_info_Some in Hi as [Hi Hu].
    rewrite existsb_exists. intros (e & He & Hw).
    apply list_elem_of_In, elem_of_events_of in He as [He1 He2].
    apply wanted_true in Hw as [Hw1 Hw2]. by exists i, e.
  - intros (i & e & Hi & <- & He & Hid & Hev & Hen).
    rewrite (find_info_unique d i Hnd Hi).
    apply existsb_exists. exists e. split.
    + by apply list_elem_of_In, elem_of_events_of.
    + by apply wanted_true.
Qed.

Lemma notified_unsubscribed userID type data w :
  subscribed (db w) userID type = false → notified env userID type data w = w.
Proof.
  unfold subscribed, notified. destruct (find_info _ _); [|done]. by intros ->.
Qed.

Lemma notified_subscribed userID type data w :
  urls_parse env (db w) →
  subscribed (db w) userID type = true →
  ∃ i href, find_info (db w) userID = Some i ∧
            parseURL env (WebhookInfo.hostURL i) = Some href ∧
            notified env userID type data w = delivered env href type data w.
Proof.
  intros Hurls. unfold subscribed, notified.
  destruct (find_info _ _) as [i|] eqn:Hi; [|done]. intros ->.
  destruct (find_info_Some _ _ _ Hi) as [Hin _].
  destruct (Hurls i Hin) as [href Hhref]. exists i, href. by rewrite Hhref.
Qed.
End Subscription.

(** ** The note procedures, step by step *)

Section NoteRuns.
Context (env : Env).

Lemma addNote_steps ctx input w :
  addNote env ctx input w =
    match z_string_trim_min 1 input with
    | Some body =>
        match stored_text env body with
        | Some data =>
            let note := Note.mk (cuid env (serial (db w))) (js "Some title") data
                          (clock env (ticks w)) in
            and_then (updateHost env (AuthedContext.upcast ctx) NOTE_CREATE note
                        (created note w)) note
        | None => (Throw PrismaClientUnknownRequestError, clock_read w)
        end
    | None => (Throw ZodError, w)
    end.
Proof.
  unfold addNote, procedure.
  destruct (z_string_trim_min 1 input) as [body|]; [|done].
  unfold bind at 1. unfold Date_now at 1. unfold bind at 1.
  unfold note_create, db_call; simpl.
  destruct (stored_text env body) as [data|]; [|done].
  unfold bind, and_then, created.
  by destruct (updateHost _ _ _ _ _) as [[[]|e] w'].
Qed.

Lemma updateNote_steps ctx input w :
  updateNote env ctx input w =
    match z_string_trim_min 2 (UpdateNoteInput.data input) with
    | Some data =>
        match update_first
                (fun n => jsstring_eqb (Note.ID n) (trim (UpdateNoteInput.ID input)))
                (fun n => Note.mk (Note.ID n) (Note.title n) data (Note.updatedOn n))
                (notes (db w)) with
        | Some (note, ns) =>
            and_then (updateHost env (AuthedContext.upcast ctx) NOTE_UPDATE note
                        (with_notes ns w)) true
        | None => (Throw RecordNotFound, w)
        end
    | None => (Throw ZodError, w)
    end.
Proof.
  unfold updateNote, procedure.
  destruct (z_string_trim_min 2 _) as [data|]; [|done]. simpl.
  unfold bind at 1. unfold note_update, db_call.
  destruct (update_first _ _ _) as [[note ns]|]; [|done].
  unfold bind, and_then, with_notes.
  by destruct (updateHost _ _ _ _ _) as [[[]|e] w'].
Qed.

Lemma findAllNotes_steps ctx w :
  findAllNotes env ctx w =
    and_then (updateHost env (AuthedContext.upcast ctx) NOTE_READ (notes (db w)) w)
      (notes (db w)).
Proof.
  unfold findAllNotes, note_findMany, db_call, bind. rewrite set_db_same.
  unfold and_then. by destruct (updateHost _ _ _ _ _) as [[[]|e] w'].
Qed.

Lemma deleteNote_steps ctx input w :
  deleteNote env ctx input w =
    match z_string_trim_min 1 input with
    | Some id =>
        match delete_first (fun n => jsstring_eqb (Note.ID n) id) (notes (db w)) with
        | Some (note, ns) =>
            and_then (updateHost env (AuthedContext.upcast ctx) NOTE_DELETE note
                        (with_notes ns w)) true
        | None => (Throw RecordNotFound, w)
        end
    | None => (Throw ZodError, w)
    end.
Proof.
  unfold deleteNote, procedure.
  destruct (z_string_trim_min 1 input) as [id|]; [|done].
  unfold bind at 1. unfold note_delete, db_call.
  destruct (delete_first _ _) as [[note ns]|]; [|done].
  unfold bind, and_then, with_notes.
  by destruct (updateHost _ _ _ _ _) as [[[]|e] w'].
Qed.

(** Where the stored URLs are well formed, the notifier returns and the
    procedures run to their end. *)

Lemma addNote_run ctx input w :
  urls_parse env (db w) →
  addNote env ctx input w =
    match z_string_trim_min 1 input with
    | Some body =>
        match stored_text env body with
        | Some data =>
            let note := Note.mk (cuid env (serial (db w))) (js "Some title") data
                          (clock env (ticks w)) in
            (Return note,
             notified env (AuthedContext.userId ctx) NOTE_CREATE (to_js note)
               (created note w))
        | None => (Throw PrismaClientUnknownRequestError, clock_read w)
        end
    | None => (Throw ZodError, w)
    end.
Proof.
  intros Hurls. rewrite addNote_steps.
  destruct (z_string_trim_min 1 input) as [body|]; [|done].
  destruct (stored_text env body) as [data|]; [|done].
  simpl. by rewrite updateHost_notified.
Qed.

Lemma updateNote_run ctx input w :
  urls_parse env (db w) →
  updateNote env ctx input w =
    match z_string_trim_min 2 (UpdateNoteInput.data input) with
    | Some data =>
        match update_first
                (fun n => jsstring_eqb (Note.ID n) (trim (UpdateNoteInput.ID input)))
                (fun n => Note.mk (Note.ID n) (Note.title n) data (Note.updatedOn n))
                (notes (db w)) with
        | Some (note, ns) =>
            (Return true,
             notified env (AuthedContext.userId ctx) NOTE_UPDATE (to_js note)
               (with_notes ns w))
        | None => (Throw RecordNotFound, w)
        end
    | None => (Throw ZodError, w)
    end.
Proof.
  intros Hurls. rewrite updateNote_steps.
  destruct (z_string_trim_min 2 _) as [data|]; [|done].
  destruct (update_first _ _ _) as [[note ns]|]; [|done].
  by rewrite updateHost_notified.
Qed.

Lemma findAllNotes_run ctx w :
  urls_parse env (db w) →
  findAllNotes env ctx w =
    (Return (notes (db w)),
     notified env (AuthedContext.userId ctx) NOTE_READ (to_js (notes (db w))) w).
Proof. intros Hurls. rewrite findAllNotes_steps. by rewrite updateHost_notified. Qed.

Lemma deleteNote_run ctx input w :
  urls_parse env (db w) →
  deleteNote env ctx input w =
    match z_string_trim_min 1 input with
    | Some id =>
        match delete_first (fun n => jsstring_eqb (Note.ID n) id) (notes (db w)) with
        | Some (note, ns) =>
            (Return true,
             notified env (AuthedContext.userId ctx) NOTE_DELETE (to_js note)
               (with_notes ns w))
        | None => (Throw RecordNotFound, w)
        end
    | None => (Throw ZodError, w)
    end.
Proof.
  intros Hurls. rewrite deleteNote_steps.
  destruct (z_string_trim_min 1 input) as [id|]; [|done].
  destruct (delete_first _ _) as [[note ns]|]; [|done].
  by rewrite updateHost_notified.
Qed.
End NoteRuns.

(** ** The requests of an operation *)

Section Sent.
Context (env : Env).

Lemma sent_app {A} (op : Async A) w l :
  outbox (snd (op w)) = outbox w ++ l → sent op w = l.
Proof. unfold sent. intros ->. by rewrite drop_app_length. Qed.

Lemma sent_unchanged {A} (op : Async A) w :
  outbox (snd (op w)) = outbox w → sent op w = [].
Proof. intros H. apply sent_app. by rewrite app_nil_r. Qed.

Lemma subscribed_tables d d' userID type :
  webhookInfos d' = webhookInfos d → webhookEvents d' = webhookEvents d →
  subscribed d' userID type = subscribed d userID type.
Proof. unfold subscribed, find_info, events_of. by intros -> ->. Qed.

(** An operation that returns through the notifier. *)
Lemma returns_notified_iff {A} (op : Async A) a userID type data w w1 :
  unique_users (db w) → urls_parse env (db w1) →
  op w = (Return a, notified env userID type data w1) →
  outbox w1 = outbox w →
  webhookInfos (db w1) = webhookInfos (db w) →
  webhookEvents (db w1) = webhookEvents (db w) →
  notifies_iff_enabled op userID type w.
Proof.
  intros Hnd Hurls Hop Hout Hinfos Hevents. unfold notifies_iff_enabled.
  rewrite <- (subscribed_iff _ _ _ Hnd).
  rewrite <- (subscribed_tables _ _ userID type Hinfos Hevents).
  destruct (subscribed (db w1) userID type) eqn:Hsub.
  - destruct (notified_subscribed env userID type data w1 Hurls Hsub)
      as (i & href & _ & _ & Hn).
    rewrite (sent_app op w [notification env href type (clock env (ticks w1)) data]).
    + rewrite Hop. simpl. split; [lia | done].
    + rewrite Hop, Hn. simpl. by rewrite Hout.
  - rewrite (sent_unchanged op w).
    + simpl. split; [lia|]. split; [done | by intros [_ ?]].
    + rewrite Hop. simpl. by rewrite notified_unsubscribed.
Qed.

(** An operation that throws before the notifier is reached. *)
Lemma throws_quietly_iff {A} (op : Async A) e userID type w w' :
  op w = (Throw e, w') → outbox w' = outbox w →
  notifies_iff_enabled op userID type w.
Proof.
  intros Hop Hout. unfold notifies_iff_enabled. rewrite (sent_unchanged op w).
  - rewrite Hop. simpl. split; [lia|]. split; [done | by intros [? _]].
  - by rewrite Hop.
Qed.

Lemma throws_early_iff {A} (op : Async A) e userID type w :
  op w = (Throw e, w) → notifies_iff_enabled op userID type w.
Proof. intros Hop. by eapply throws_quietly_iff. Qed.
End Sent.

(** ** The event notifier *)

(** C1: whenever a note operation (create, update, find all, delete)
    invokes the event notifier, the notifier returns and hands exactly one
    request to [fetch] when, and only when, the user has a webhook
    configuration with an enabled setting of the triggering event; without a
    configuration, or without an enabled setting of the event, it changes
    nothing and raises no error; the first enabled entry of the event in the
    settings list ends the scan, with one call of [updateWebhook].  Seen
    from the four operations: each hands at most one request to [fetch], and
    one exactly when it got as far as the notifier and the event is
    enabled. *)
Theorem notifier_attempts_once_iff_enabled env ctx w :
  unique_users (db w) → urls_parse env (db w) →
  let userID := AuthedContext.userId ctx in
  (∀ T (H : ToJS T) type (data : T),
     let run := updateHost env (AuthedContext.upcast ctx) type data in
     fst (run w) = Return tt ∧
     length (sent run w) ≤ 1 ∧
     (length (sent run w) = 1 ↔ has_enabled_setting (db w) userID type)) ∧
  (∀ T (H : ToJS T) type (data : T),
     no_config (db w) userID ∨ ¬ has_enabled_setting (db w) userID type →
     updateHost env (AuthedContext.upcast ctx) type data w = (Return tt, w)) ∧
  (∀ T (H : ToJS T) hostURL type (data : T) l1 e l2,
     Forall (fun e' => wanted type e' = false) l1 →
     wanted type e = true →
     updateHost_loop env hostURL type data (l1 ++ e :: l2)
     = updateWebhook env hostURL type data) ∧
  (∀ body, notifies_iff_enabled (addNote env ctx body) userID NOTE_CREATE w) ∧
  (∀ input, notifies_iff_enabled (updateNote env ctx input) userID NOTE_UPDATE w) ∧
  notifies_iff_enabled (findAllNotes env ctx) userID NOTE_READ w ∧
  (∀ id, notifies_iff_enabled (deleteNote env ctx id) userID NOTE_DELETE w).
Proof.
  intros Hnd Hurls userID. split_and!.
  - intros T H type data run.
    pose proof (updateHost_notified env ctx type data w Hurls) as Hrun.
    fold run in Hrun.
    destruct (returns_notified_iff env run tt userID type (to_js data) w w
                Hnd Hurls Hrun eq_refl eq_refl eq_refl) as [Hle Hiff].
    split_and!; [by rewrite Hrun | done |].
    rewrite Hiff, Hrun. simpl. split; [by intros [_ ?] | done].
  - intros T H type data Hno. rewrite (updateHost_notified env ctx type data w Hurls).
    f_equal. apply notified_unsubscribed.
    destruct (subscribed (db w) (AuthedContext.userId ctx) type) eqn:Hsub; [|done].
    apply (subscribed_iff _ _ _ Hnd) in Hsub. destruct Hno as [Hno|Hno]; [|done].
    destruct Hsub as (i & _ & Hi & Hu & _). by destruct (Hno i Hi).
  - intros T H hostURL type data l1 e l2. apply updateHost_loop_first.
  - intros body. pose proof (addNote_run env ctx body w Hurls) as Hrun.
    destruct (z_string_trim_min 1 body) as [b|]; [|by eapply throws_early_iff].
    destruct (stored_text env b) as [data|]; [|by eapply throws_quietly_iff].
    by eapply returns_notified_iff; [exact Hnd | | exact Hrun | ..].
  - intros input. pose proof (updateNote_run env ctx input w Hurls) as Hrun.
    destruct (z_string_trim_min 2 _) as [b|]; [|by eapply throws_early_iff].
    destruct (update_first _ _ _) as [[note ns]|]; [|by eapply throws_early_iff].
    by eapply returns_notified_iff; [exact Hnd | | exact Hrun | ..].
  - pose proof (findAllNotes_run env ctx w Hurls) as Hrun.
    by eapply returns_notified_iff; [exact Hnd | | exact Hrun | ..].
  - intros id. pose proof (deleteNote_run env ctx id w Hurls) as Hrun.
    destruct (z_string_trim_min 1 id) as [b|]; [|by eapply throws_early_iff].
    destruct (delete_first _ _) as [[note ns]|]; [|by eapply throws_early_iff].
    by eapply returns_notified_iff; [exact Hnd | | exact Hrun | ..].
Qed.

(** ** The request of a notification *)

Section Requests.
Context (env : Env).

Lemma delete_first_Some {A} (p : A -> bool) l y l' :
  delete_first p l = Some (y, l') →
  ∃ l1 l2, l = l1 ++ y :: l2 ∧ Forall (fun z => p z = false) l1 ∧
           p y = true ∧ l' = l1 ++ l2.
Proof.
  revert l'. induction l as [|x l IH]; simpl; intros l' H; [done|].
  destruct (p x) eqn:Hp.
  - injection H as <- <-. by exists [], l.
  - destruct (delete_first p l) as [[y0 l0]|] eqn:E; [|done].
    injection H as <- <-.
    destruct (IH _ eq_refl) as (l1 & l2 & -> & H1 & H2 & ->).
    exists (x :: l1), l2. repeat split; try done. by constructor.
Qed.

Lemma z_string_trim_min_Some n input s :
  z_string_trim_min n input = Some s ↔ s = trim input ∧ n ≤ length (trim input).
Proof.
  unfold z_string_trim_min. destruct (Nat.leb_spec n (length (trim input))).
  - split; [by intros [= <-] | by intros [-> _]].
  - split; [done | intros [_ ?]; lia].
Qed.

Lemma z_string_trim_min_None n input :
  z_string_trim_min n input = None ↔ length (trim input) < n.
Proof.
  unfold z_string_trim_min. destruct (Nat.leb_spec n (length (trim input))).
  - split; [done | lia].
  - done.
Qed.

(** The notifier either leaves the world as it is, or has delivered one
    notification to the URL of the user's configuration. *)
Lemma updateHost_cases {T} `{ToJS T} ctx type (data : T) w :
  (∃ c, updateHost env (AuthedContext.upcast ctx) type data w = (c, w)) ∨
  (∃ i href,
      find_info (db w) (AuthedContext.userId ctx) = Some i ∧
      parseURL env (WebhookInfo.hostURL i) = Some href ∧
      updateHost env (AuthedContext.upcast ctx) type data w
      = (Return tt, delivered env href type (to_js data) w)).
Proof.
  unfold AuthedContext.upcast. rewrite updateHost_run.
  fold (AuthedContext.userId ctx).
  destruct (find_info _ _) as [i|] eqn:Hi; [|by left; eexists].
  destruct (existsb _ _); [|by left; eexists].
  rewrite updateWebhook_run.
  destruct (parseURL _ _) as [href|] eqn:Hhref; [|by left; eexists].
  right. by exists i, href.
Qed.
End Requests.

Section Payloads.
Context (env : Env).

Lemma sent_delivered {A} (op : Async A) a href type data w w1 :
  op w = (a, delivered env href type data w1) →
  outbox w1 = outbox w →
  sent op w = [notification env href type (clock env (ticks w1)) data].
Proof. intros Hop Hout. apply sent_app. rewrite Hop. simpl. by rewrite Hout. Qed.

Lemma updateHost_db {T} `{ToJS T} ctx type (data : T) w :
  db (snd (updateHost env (AuthedContext.upcast ctx) type data w)) = db w.
Proof.
  destruct (updateHost_cases env ctx type data w)
    as [[c ->]|(i & href & _ & _ & ->)]; done.
Qed.



End Payloads.


(** ** Failures of the notification *)

Section Failures.
Context (env : Env).

(** The notifier adds at most one request, and to the console what the
    answer to that request makes it log. *)
Lemma notified_effects userID type data w :
  ∃ requests,
    outbox (notified env userID type data w) = outbox w ++ requests ∧
    length requests ≤ 1 ∧
    console (notified env userID type data w)
    = console w ++ flat_map (fun r => logged (network env (length (outbox w)) r)) requests.
Proof.
  assert (∃ requests,
    outbox w = outbox w ++ requests ∧ length requests ≤ 1 ∧
    console w
    = console w ++ flat_map (fun r => logged (network env (length (outbox w)) r)) requests)
    as Hsame.
  { exists []. simpl. rewrite !app_nil_r. split_and!; [done | lia | done]. }
  unfold notified.
  destruct (find_info _ _) as [i|]; [|done].
  destruct (existsb _ _); [|done].
  destruct (parseURL _ _) as [href|]; [|done].
  exists [notification env href type (clock env (ticks w)) data]. simpl.
  rewrite app_nil_r. split_and!; [done | lia | done].
Qed.

Lemma returns_notified_survives {A} (op : Async A) a userID type data w w1 :
  op w = (Return a, notified env userID type data w1) →
  outbox w1 = outbox w → console w1 = console w →
  survives env op w a (db w1).
Proof.
  intros Hop Hout Hcon. unfold survives. rewrite Hop. simpl.
  split_and!; [done | apply notified_db |].
  destruct (notified_effects userID type data w1) as (requests & H1 & H2 & H3).
  exists requests. by rewrite H1, H3, Hout, Hcon.
Qed.
End Failures.

(** C3: when the storage call of a note operation (create, update, bulk
    read, delete) completes, the operation returns the result of the storage
    call and leaves the tables as the storage call left them, whatever the
    network answers: at most one request is handed to [fetch] (no retry),
    and a rejected request or a response outside 200-299 shows as one line
    on the console and nowhere else. *)
Theorem notification_failure_never_surfaces env ctx w :
  urls_parse env (db w) →
  (∀ input body note w1,
     z_string_trim_min 1 input = Some body →
     (let* updatedOn := Date_now env in
      note_create env body (js "Some title") updatedOn) w = (Return note, w1) →
     survives env (addNote env ctx input) w note (db w1)) ∧
  (∀ input data note w1,
     z_string_trim_min 2 (UpdateNoteInput.data input) = Some data →
     note_update (trim (UpdateNoteInput.ID input)) data w = (Return note, w1) →
     survives env (updateNote env ctx input) w true (db w1)) ∧
  (∀ found w1,
     note_findMany w = (Return found, w1) →
     survives env (findAllNotes env ctx) w found (db w1)) ∧
  (∀ input id note w1,
     z_string_trim_min 1 input = Some id →
     note_delete id w = (Return note, w1) →
     survives env (deleteNote env ctx input) w true (db w1)).
Proof.
  intros Hurls. split_and!.
  - intros input body note w1 Hparse Hstore.
    pose proof (addNote_run env ctx input w Hurls) as Hrun.
    rewrite Hparse in Hrun. simpl in Hrun.
    unfold bind, Date_now, note_create, db_call in Hstore. simpl in Hstore.
    destruct (stored_text env body) as [stored|]; [|done].
    injection Hstore as <- <-.
    by eapply returns_notified_survives; [exact Hrun | ..].
  - intros input data note w1 Hparse Hstore.
    pose proof (updateNote_run env ctx input w Hurls) as Hrun.
    rewrite Hparse in Hrun.
    unfold note_update, db_call in Hstore.
    destruct (update_first _ _ _) as [[note' ns]|]; [|done].
    injection Hstore as <- <-.
    by eapply returns_notified_survives; [exact Hrun | ..].
  - intros found w1 Hstore.
    pose proof (findAllNotes_run env ctx w Hurls) as Hrun.
    unfold note_findMany, db_call in Hstore. rewrite set_db_same in Hstore.
    injection Hstore as <- <-.
    by eapply returns_notified_survives; [exact Hrun | ..].
  - intros input id note w1 Hparse Hstore.
    pose proof (deleteNote_run env ctx input w Hurls) as Hrun.
    rewrite Hparse in Hrun.
    unfold note_delete, db_call in Hstore.
    destruct (delete_first _ _) as [[note' ns]|]; [|done].
    injection Hstore as <- <-.
    by eapply returns_notified_survives; [exact Hrun | ..].
Qed.

(** ** Validation of the note procedures *)

(** C4, as amended: where the input of [addNote] is empty once trimmed,
    the procedure fails with the validation error and the world is as
    before: nothing is created.  Where it is not empty once trimmed, the
    trimmed input goes to the database, and the outcome is the database's:
    when the database takes the text, the procedure returns a note whose
    [data] is the text that the database hands back for the trimmed input
    (the trimmed input itself wherever the database keeps a text as it is),
    and that note is the one row added to the table; when the database
    client rejects the text, the procedure fails with the client's error,
    the tables are as before and nothing is handed to [fetch]. *)
Theorem addNote_trims_and_validates env ctx input w :
  urls_parse env (db w) →
  match trim input with
  | [] => addNote env ctx input w = (Throw ZodError, w)
  | _ :: _ =>
      match stored_text env (trim input) with
      | Some data =>
          (∃ note, fst (addNote env ctx input w) = Return note ∧
                   Note.data note = data ∧
                   notes (db (snd (addNote env ctx input w))) = notes (db w) ++ [note]) ∧
          (data = trim input →
           ∃ note, fst (addNote env ctx input w) = Return note ∧
                   Note.data note = trim input)
      | None =>
          fst (addNote env ctx input w) = Throw PrismaClientUnknownRequestError ∧
          db (snd (addNote env ctx input w)) = db w ∧
          sent (addNote env ctx input) w = []
      end
  end.
Proof.
  intros Hurls. pose proof (addNote_run env ctx input w Hurls) as Hrun.
  unfold z_string_trim_min in Hrun.
  destruct (trim input) as [|c s] eqn:Htrim; simpl in Hrun; [done|].
  destruct (stored_text env (c :: s)) as [data|].
  - rewrite Hrun. simpl. split.
    + eexists. split_and!; [done | done |]. by rewrite notified_db.
    + intros ->. by eexists.
  - rewrite Hrun. split_and!; [done | done |].
    apply sent_unchanged. by rewrite Hrun.
Qed.

(** C5: an update whose [data] is shorter than 2 once trimmed fails with
    the validation error; the world is as before, so the stored note is
    unchanged and nothing was handed to [fetch]. *)
Theorem updateNote_short_body_rejected env ctx input w :
  length (trim (UpdateNoteInput.data input)) < 2 →
  updateNote env ctx input w = (Throw ZodError, w) ∧
  db (snd (updateNote env ctx input w)) = db w ∧
  sent (updateNote env ctx input) w = [].
Proof.
  intros Hshort. apply z_string_trim_min_None in Hshort.
  pose proof (updateNote_steps env ctx input w) as Hrun. rewrite Hshort in Hrun.
  split_and!; [done | by rewrite Hrun |].
  apply sent_unchanged. by rewrite Hrun.
Qed.


(** ** The webhook configuration *)

(** C7: for a user without a webhook configuration, [setEvent] throws the
    [BAD_REQUEST] error of the missing webhook host and the world is as
    before, so no event setting is created; [getEvents] in the same world
    returns the empty list. *)
Theorem setEvent_requires_config env ctx input w :
  no_config (db w) (AuthedContext.userId ctx) →
  setEvent env ctx input w
  = (Throw (TRPCError BAD_REQUEST "Webhook host not configured"), w) ∧
  webhookEvents (db (snd (setEvent env ctx input w))) = webhookEvents (db w) ∧
  getEvents ctx w = (Return [], w).
Proof.
  intros Hno. apply find_info_None in Hno.
  assert (setEvent env ctx input w
          = (Throw (TRPCError BAD_REQUEST "Webhook host not configured"), w)) as Hset.
  { unfold setEvent, procedure, webhookInfo_findUnique, db_call, bind.
    rewrite Hno, set_db_same. done. }
  split_and!; [done | by rewrite Hset |].
  unfold getEvents, webhookInfo_find_include, db_call, bind.
  by rewrite Hno, set_db_same.
Qed.

(** ** The webhook service *)

(** C9: with a URL that [new URL] accepts, [updateWebhook] returns, whatever
    the network answers; with a URL that [new URL] rejects, the error of the
    constructor reaches the caller: nothing is sent and nothing is
    logged. *)
Theorem updateWebhook_throws_only_on_bad_url env T (H : ToJS T) url type (data : T) w :
  match parseURL env url with
  | Some href =>
      fst (updateWebhook env url type data w) = Return tt ∧
      console (snd (updateWebhook env url type data w))
      = console w ++ logged (network env (length (outbox w))
                               (notification env href type (clock env (ticks w))
                                  (to_js data)))
  | None =>
      updateWebhook env url type data w = (Throw (InvalidURL url), w) ∧
      outbox (snd (updateWebhook env url type data w)) = outbox w ∧
      console (snd (updateWebhook env url type data w)) = console w
  end.
Proof.
  rewrite updateWebhook_run. by destruct (parseURL env url).
Qed.

(** C10: when [updateNote] or [deleteNote] returns, it returns [true]. *)
Theorem update_delete_return_true env ctx w :
  (∀ input success,
     fst (updateNote env ctx input w) = Return success → success = true) ∧
  (∀ id success,
     fst (deleteNote env ctx id w) = Return success → success = true).
Proof.
  split.
  - intros input success. rewrite updateNote_steps.
    destruct (z_string_trim_min 2 _); [|done].
    destruct (update_first _ _ _) as [[note ns]|]; [|done].
    unfold and_then. destruct (updateHost _ _ _ _ _) as [[[]|e] w']; simpl; congruence.
  - intros id success. rewrite deleteNote_steps.
    destruct (z_string_trim_min 1 id); [|done].
    destruct (delete_first _ _) as [[note ns]|]; [|done].
    unfold and_then. destruct (updateHost _ _ _ _ _) as [[[]|e] w']; simpl; congruence.
Qed.

(** ** The invariants of the store *)

Section Invariants.
Context (env : Env).

Lemma update_first_length {A} (p : A -> bool) f l y l' :
  update_first p f l = Some (y, l') → length l' = length l.
Proof.
  intros H. apply update_first_Some in H as (l1 & x & l2 & -> & _ & _ & _ & ->).
  by rewrite !length_app.
Qed.

Lemma update_first_elem {A} (p : A -> bool) f l y l' :
  update_first p f l = Some (y, l') → y ∈ l'.
Proof.
  intros H. apply update_first_Some in H as (l1 & x & l2 & _ & _ & _ & -> & ->).
  apply elem_of_app. right. by left.
Qed.



Lemma store_ok_tables d d' :
  webhookInfos d' = webhookInfos d → webhookEvents d' = webhookEvents d →
  store_ok env d → store_ok env d'.
Proof.
  intros Hi He [H1 H2 H3 H4].
  split; unfold unique_users, unique_event_keys, events_owned, urls_parse in *;
    by rewrite ?Hi, ?He.
Qed.

Lemma initial_store_ok : store_ok env empty_db.
Proof.
  split.
  - constructor.
  - constructor.
  - intros e He. by apply elem_of_nil in He.
  - intros i Hi. by apply elem_of_nil in Hi.
Qed.

(** *** [setWebhookURL] *)

Lemma setWebhookURL_run ctx url w :
  setWebhookURL env ctx url w =
    match parseURL env url with
    | Some _ =>
        match update_first
                (fun i => jsstring_eqb (WebhookInfo.userID i) (AuthedContext.userId ctx))
                (fun i => WebhookInfo.mk (WebhookInfo.ID i) (WebhookInfo.userID i) url)
                (webhookInfos (db w)) with
        | Some (i, infos) =>
            let d' := mkDB (notes (db w)) infos (webhookEvents (db w)) (serial (db w)) in
            (Return (WebhookInfoWithEvents.mk i (events_of d' i)), set_db d' w)
        | None =>
            let i := WebhookInfo.mk (cuid env (serial (db w)))
                       (AuthedContext.userId ctx) url in
            let d' := mkDB (notes (db w)) (webhookInfos (db w) ++ [i])
                        (webhookEvents (db w)) (S (serial (db w))) in
            (Return (WebhookInfoWithEvents.mk i (events_of d' i)), set_db d' w)
        end
    | None => (Throw ZodError, w)
    end.
Proof.
  unfold setWebhookURL, procedure, z_string_url.
  destruct (parseURL env url); [|done].
  unfold webhookInfo_upsert, db_call, bind.
  by destruct (update_first _ _ _) as [[i infos]|].
Qed.

Lemma setWebhookURL_store_ok ctx url w :
  store_ok env (db w) → store_ok env (db (snd (setWebhookURL env ctx url w))).
Proof.
  intros [Hu Hk Ho Hp]. rewrite setWebhookURL_run.
  destruct (parseURL env url) as [href|] eqn:Hhref; [|done].
  destruct (update_first _ _ _) as [[i infos]|] eqn:Hup; simpl.
  - split; unfold unique_users, unique_event_keys, events_owned, urls_parse; simpl.
    + by rewrite (update_first_fmap WebhookInfo.userID _ _ _ _ _ Hup (fun _ => eq_refl)).
    + done.
    + intros e He. destruct (Ho e He) as (i0 & Hi0 & Hid).
      assert (WebhookInfo.ID i0 ∈ map WebhookInfo.ID infos) as Hin.
      { rewrite (update_first_fmap WebhookInfo.ID _ _ _ _ _ Hup (fun _ => eq_refl)).
        apply list_elem_of_fmap. by exists i0. }
      apply list_elem_of_fmap in Hin as (i1 & Hid1 & Hi1).
      exists i1. split; [done | congruence].
    + apply update_first_Some in Hup as (l1 & x & l2 & Hl & _ & _ & -> & ->).
      intros i0 Hi0. apply elem_of_app in Hi0 as [Hi0|Hi0].
      * apply Hp. rewrite Hl. apply elem_of_app. by left.
      * apply elem_of_cons in Hi0 as [->|Hi0]; [by simpl; rewrite Hhref|].
        apply Hp. rewrite Hl. apply elem_of_app. right. by right.
  - apply update_first_None in Hup. rewrite Forall_forall in Hup.
    split; unfold unique_users, unique_event_keys, events_owned, urls_parse; simpl.
    + rewrite map_app. apply NoDup_app. split_and!; [done | | apply NoDup_singleton].
      intros u Hu1 Hu2. apply list_elem_of_singleton in Hu2 as ->.
      apply list_elem_of_fmap in Hu1 as (i0 & Hi0 & Hin).
      specialize (Hup i0 Hin). apply jsstring_eqb_false in Hup. by simpl in Hi0.
    + done.
    + intros e He. destruct (Ho e He) as (i0 & Hi0 & Hid).
      exists i0. split; [|done]. apply elem_of_app. by left.
    + intros i0 Hi0. apply elem_of_app in Hi0 as [Hi0|Hi0]; [by apply Hp|].
      apply list_elem_of_singleton in Hi0 as ->. simpl. by rewrite Hhref.
Qed.

End Invariants.

Section EventSettings.
Context (env : Env).

Lemma event_where_true webhookInfoID event e :
  event_where webhookInfoID event e = true ↔ event_key e = (webhookInfoID, event).
Proof.
  unfold event_where, event_key.
  rewrite andb_true_iff, jsstring_eqb_true, bool_decide_eq_true.
  split; [by intros [-> ->] | by intros [= -> ->]].
Qed.

Lemma setEvent_run ctx input w :
  setEvent env ctx input w =
    match find_info (db w) (AuthedContext.userId ctx) with
    | Some info =>
        match update_first
                (event_where (WebhookInfo.ID info) (SetEventInput.event input))
                (fun e => WebhookEvent.mk (WebhookEvent.ID e)
                            (WebhookEvent.webhookInfoID e) (WebhookEvent.event e)
                            (SetEventInput.enabled input))
                (webhookEvents (db w)) with
        | Some (e, es) =>
            (Return e, set_db (mkDB (notes (db w)) (webhookInfos (db w)) es
                                 (serial (db w))) w)
        | None =>
            let e := WebhookEvent.mk (cuid env (serial (db w))) (WebhookInfo.ID info)
                       (SetEventInput.event input) (SetEventInput.enabled input) in
            (Return e, set_db (mkDB (notes (db w)) (webhookInfos (db w))
                                 (webhookEvents (db w) ++ [e]) (S (serial (db w)))) w)
        end
    | None => (Throw (TRPCError BAD_REQUEST "Webhook host not configured"), w)
    end.
Proof.
  unfold setEvent, procedure, webhookInfo_findUnique, db_call, bind.
  rewrite set_db_same.
  destruct (find_info _ _) as [info|]; [|done].
  unfold webhookEvent_upsert, db_call, bind, event_where.
  by destruct (update_first _ _ _) as [[e es]|].
Qed.

Lemma setEvent_store_ok ctx input w :
  store_ok env (db w) → store_ok env (db (snd (setEvent env ctx input w))).
Proof.
  intros [Hu Hk Ho Hp]. rewrite setEvent_run.
  destruct (find_info _ _) as [info|] eqn:Hinfo; [|done].
  apply find_info_Some in Hinfo as [Hinfo _].
  destruct (update_first _ _ _) as [[e es]|] eqn:Hup; simpl.
  - split; unfold unique_users, unique_event_keys, events_owned, urls_parse; simpl;
      [done | | | done].
    + by rewrite (update_first_fmap event_key _ _ _ _ _ Hup (fun _ => eq_refl)).
    + intros e0 He0.
      assert (WebhookEvent.webhookInfoID e0
              ∈ map WebhookEvent.webhookInfoID (webhookEvents (db w))) as Hin.
      { rewrite <- (update_first_fmap WebhookEvent.webhookInfoID _ _ _ _ _ Hup
                      (fun _ => eq_refl)).
        apply list_elem_of_fmap. by exists e0. }
      apply list_elem_of_fmap in Hin as (e1 & Hid & He1).
      rewrite Hid. by apply Ho.
  - apply update_first_None in Hup. rewrite Forall_forall in Hup.
    split; unfold unique_users, unique_event_keys, events_owned, urls_parse; simpl;
      [done | | | done].
    + rewrite map_app. apply NoDup_app. split_and!; [done | | apply NoDup_singleton].
      intros k Hk1 Hk2. apply list_elem_of_singleton in Hk2 as ->.
      apply list_elem_of_fmap in Hk1 as (e0 & He0 & Hin).
      specialize (Hup e0 Hin). simpl in He0. unfold event_key in He0. simpl in He0.
      assert (event_where (WebhookInfo.ID info) (SetEventInput.event input) e0 = true)
        as Htrue by (by apply event_where_true).
      congruence.
    + intros e0 He0. apply elem_of_app in He0 as [He0|He0]; [by apply Ho|].
      apply list_elem_of_singleton in He0 as ->. by exists info.
Qed.

(** An accepted [setEvent] leaves one row of the event in the user's
    configuration, with the flag it was given; the row is updated in place
    when it was there. *)
Lemma setEvent_row ctx input w info :
  find_info (db w) (AuthedContext.userId ctx) = Some info →
  ∃ row,
    fst (setEvent env ctx input w) = Return row ∧
    row ∈ webhookEvents (db (snd (setEvent env ctx input w))) ∧
    event_key row = (WebhookInfo.ID info, SetEventInput.event input) ∧
    WebhookEvent.enabled row = SetEventInput.enabled input ∧
    webhookInfos (db (snd (setEvent env ctx input w))) = webhookInfos (db w) ∧
    ((∃ e, e ∈ webhookEvents (db w) ∧
           event_key e = (WebhookInfo.ID info, SetEventInput.event input)) →
     length (webhookEvents (db (snd (setEvent env ctx input w))))
     = length (webhookEvents (db w))).
Proof.
  intros Hinfo. rewrite setEvent_run, Hinfo.
  destruct (update_first _ _ _) as [[e es]|] eqn:Hup; simpl.
  - exists e. split_and!; try done.
    + by apply update_first_elem in Hup.
    + apply update_first_Some in Hup as (l1 & x & l2 & _ & _ & Hx & -> & _).
      by apply event_where_true in Hx.
    + by apply update_first_Some in Hup as (l1 & x & l2 & _ & _ & _ & -> & _).
    + intros _. by apply update_first_length in Hup.
  - eexists. split_and!; try done.
    + apply elem_of_app. right. by left.
    + intros (e & He & Hkey). apply update_first_None in Hup.
      rewrite Forall_forall in Hup. specialize (Hup e He).
      apply event_where_true in Hkey. congruence.
Qed.

Lemma getEvents_run ctx w :
  getEvents ctx w =
    (Return match find_info (db w) (AuthedContext.userId ctx) with
            | Some info => events_of (db w) info
            | None => []
            end, w).
Proof.
  unfold getEvents, webhookInfo_find_include, db_call, bind. rewrite set_db_same.
  by destruct (find_info _ _).
Qed.
End EventSettings.

Section Reachable.
Context (env : Env).

Lemma note_procedures_keep_tables ctx w :
  urls_parse env (db w) →
  (∀ body, webhookInfos (db (snd (addNote env ctx body w))) = webhookInfos (db w) ∧
           webhookEvents (db (snd (addNote env ctx body w))) = webhookEvents (db w)) ∧
  (∀ input, webhookInfos (db (snd (updateNote env ctx input w))) = webhookInfos (db w) ∧
            webhookEvents (db (snd (updateNote env ctx input w))) = webhookEvents (db w)) ∧
  (webhookInfos (db (snd (findAllNotes env ctx w))) = webhookInfos (db w) ∧
   webhookEvents (db (snd (findAllNotes env ctx w))) = webhookEvents (db w)) ∧
  (∀ id, webhookInfos (db (snd (deleteNote env ctx id w))) = webhookInfos (db w) ∧
         webhookEvents (db (snd (deleteNote env ctx id w))) = webhookEvents (db w)).
Proof.
  intros Hurls. split_and!.
  - intros body. rewrite (addNote_run env ctx body w Hurls).
    destruct (z_string_trim_min 1 body) as [b|]; [|done].
    destruct (stored_text env b); [|done]. simpl. by rewrite notified_db.
  - intros input. rewrite (updateNote_run env ctx input w Hurls).
    destruct (z_string_trim_min 2 _); [|done].
    destruct (update_first _ _ _) as [[note ns]|]; [|done].
    simpl. by rewrite notified_db.
  - rewrite (findAllNotes_run env ctx w Hurls). simpl. by rewrite notified_db.
  - rewrite (findAllNotes_run env ctx w Hurls). simpl. by rewrite notified_db.
  - intros id. rewrite (deleteNote_run env ctx id w Hurls).
    destruct (z_string_trim_min 1 id); [|done].
    destruct (delete_first _ _) as [[note ns]|]; [|done].
    simpl. by rewrite notified_db.
Qed.

(** Every call of the service keeps the invariants of the store. *)
Lemma perform_store_ok w c :
  store_ok env (db w) → store_ok env (db (perform env w c)).
Proof.
  intros Hok.
  destruct (note_procedures_keep_tables (match c with
              | AddNote ctx _ | UpdateNote ctx _ | FindAllNotes ctx | DeleteNote ctx _
              | SetWebhookURL ctx _ | FindWebhookInto ctx | SetEvent ctx _
              | GetEvents ctx => ctx end) w (ok_urls _ _ Hok))
    as (Hadd & Hupd & Hall & Hdel).
  destruct c as [ctx url|ctx|ctx input|ctx|ctx body|ctx input|ctx|ctx id];
    cbn [perform].
  - by apply setWebhookURL_store_ok.
  - unfold findWebhookInto, webhookInfo_findUnique, db_call.
    by rewrite set_db_same.
  - by apply setEvent_store_ok.
  - by rewrite getEvents_run.
  - destruct (Hadd body). by eapply store_ok_tables.
  - destruct (Hupd input). by eapply store_ok_tables.
  - destruct Hall. by eapply store_ok_tables.
  - destruct (Hdel id). by eapply store_ok_tables.
Qed.

Lemma perform_all_store_ok w calls :
  store_ok env (db w) → store_ok env (db (perform_all env w calls)).
Proof.
  revert w. induction calls as [|c calls IH]; simpl; intros w Hok; [done|].
  apply IH. by apply perform_store_ok.
Qed.

(** The invariants hold in every world that the service reaches from the
    empty store. *)
Lemma reachable_store_ok calls :
  store_ok env (db (perform_all env initial_world calls)).
Proof. apply perform_all_store_ok. apply initial_store_ok. Qed.
End Reachable.


(** * The properties at work *)

(** The worlds of the examples are reached through the service, so their
    stores are well formed. *)
Lemma alice_world_ok o : store_ok (sample_env o) (db (alice_world o)).
Proof. apply reachable_store_ok. Qed.


(** Alice has enabled [NOTE_CREATE]: creating a note sends one request;
    [NOTE_DELETE] is disabled: deleting sends none. *)
Lemma notifier_attempts_once_iff_enabled_witness :
  let env := sample_env http_200 in
  let w := alice_world http_200 in
  unique_users (db w) ∧ urls_parse env (db w) ∧
  notifies_iff_enabled (addNote env alice (js "n1")) (AuthedContext.userId alice)
    NOTE_CREATE w ∧
  length (sent (addNote env alice (js "n1")) w) = 1 ∧
  length (sent (deleteNote env alice (js "c111"))
            (perform env w (AddNote alice (js "n1")))) = 0.
Proof.
  intros env w.
  pose proof (ok_users _ _ (alice_world_ok http_200)) as Husers.
  pose proof (ok_urls _ _ (alice_world_ok http_200)) as Hurls.
  split_and!; [exact Husers | exact Hurls | | vm_compute; reflexivity
              | vm_compute; reflexivity].
  destruct (notifier_attempts_once_iff_enabled env alice w Husers Hurls)
    as (_ & _ & _ & Hadd & _).
  exact (Hadd (js "n1")).
Defined.


(** The endpoint answers 500: the note is created and returned, and the
    failure is one line on the console. *)
Lemma notification_failure_never_surfaces_witness :
  let env := sample_env http_500 in
  let w := alice_world http_500 in
  let note := Note.mk (js "c111") (js "Some title") (js "n1") 1700000000000 in
  urls_parse env (db w) ∧
  z_string_trim_min 1 (js " n1 ") = Some (js "n1") ∧
  survives env (addNote env alice (js " n1 ")) w note
    (mkDB [note] (webhookInfos (db w)) (webhookEvents (db w)) 4) ∧
  console (snd (addNote env alice (js " n1 ") w))
  = [LogRequestFailed 500 (js "Internal Server Error")].
Proof.
  intros env w note.
  pose proof (ok_urls _ _ (alice_world_ok http_500)) as Hurls.
  split_and!; [exact Hurls | reflexivity | | vm_compute; reflexivity].
  destruct (notification_failure_never_surfaces env alice w Hurls) as (Hadd & _).
  apply (Hadd (js " n1 ") (js "n1") note
           (mkWorld (mkDB [note] (webhookInfos (db w)) (webhookEvents (db w)) 4)
              [] [] 1)); reflexivity.
Defined.

(** C4, as stated, fails on two texts that are not empty once trimmed.  A
    text with an unpaired surrogate is rejected by the database client: the
    procedure throws that error and returns no note.  A text with a NUL
    character comes back cut before it: the returned note holds less than
    the trimmed input. *)
Lemma addNote_text_as_the_database_has_it :
  let env := sample_env http_200 in
  let w := alice_world http_200 in
  let lone := [97; 55357; 98]%N in
  let nul := [97; 0; 98]%N in
  urls_parse env (db w) ∧
  trim lone = lone ∧ lone ≠ [] ∧
  fst (addNote env alice lone w) = Throw PrismaClientUnknownRequestError ∧
  (∀ note, fst (addNote env alice lone w) ≠ Return note) ∧
  trim nul = nul ∧ nul ≠ [] ∧
  match fst (addNote env alice nul w) with
  | Return note => Note.data note = [97]%N ∧ Note.data note ≠ trim nul
  | Throw _ => False
  end.
Proof.
  intros env w lone nul.
  split_and!.
  - exact (ok_urls _ _ (alice_world_ok http_200)).
  - vm_compute; reflexivity.
  - discriminate.
  - vm_compute; reflexivity.
  - intros note. vm_compute. discriminate.
  - vm_compute; reflexivity.
  - discriminate.
  - vm_compute. split; [reflexivity | discriminate].
Qed.

Lemma addNote_trims_and_validates_witness :
  let env := sample_env http_500 in
  let w := alice_world http_500 in
  urls_parse env (db w) ∧
  ((∃ note, fst (addNote env alice (js " n1 ") w) = Return note ∧
            Note.data note = js "n1" ∧
            notes (db (snd (addNote env alice (js " n1 ") w))) = notes (db w) ++ [note]) ∧
   (js "n1" = js "n1" →
    ∃ note, fst (addNote env alice (js " n1 ") w) = Return note ∧
            Note.data note = js "n1")) ∧
  addNote env alice (js "   ") w = (Throw ZodError, w) ∧
  (fst (addNote env alice [32; 97; 55357; 98]%N w) = Throw PrismaClientUnknownRequestError ∧
   db (snd (addNote env alice [32; 97; 55357; 98]%N w)) = db w ∧
   sent (addNote env alice [32; 97; 55357; 98]%N) w = []).
Proof.
  intros env w.
  pose proof (ok_urls _ _ (alice_world_ok http_500)) as Hurls.
  split; [exact Hurls|].
  split; [exact (addNote_trims_and_validates env alice (js " n1 ") w Hurls)|].
  split; [exact (addNote_trims_and_validates env alice (js "   ") w Hurls)|].
  exact (addNote_trims_and_validates env alice [32; 97; 55357; 98]%N w Hurls).
Defined.

Lemma updateNote_short_body_rejected_witness :
  let env := sample_env http_200 in
  let w := perform env (alice_world http_200) (AddNote alice (js "n1")) in
  let input := UpdateNoteInput.mk (js "c111") (js " x ") in
  length (trim (UpdateNoteInput.data input)) < 2 ∧
  updateNote env alice input w = (Throw ZodError, w) ∧
  db (snd (updateNote env alice input w)) = db w ∧
  sent (updateNote env alice input) w = [].
Proof.
  intros env w input.
  assert (length (trim (UpdateNoteInput.data input)) < 2) as Hshort
    by (vm_compute; lia).
  split; [exact Hshort|].
  exact (updateNote_short_body_rejected env alice input w Hshort).
Defined.



Lemma setEvent_requires_config_witness :
  let env := sample_env http_200 in
  let input := SetEventInput.mk NOTE_CREATE true in
  no_config (db initial_world) (AuthedContext.userId alice) ∧
  setEvent env alice input initial_world
  = (Throw (TRPCError BAD_REQUEST "Webhook host not configured"), initial_world) ∧
  getEvents alice initial_world = (Return [], initial_world).
Proof.
  intros env input.
  assert (no_config (db initial_world) (AuthedContext.userId alice)) as Hno.
  { intros i Hi. by apply elem_of_nil in Hi. }
  split; [exact Hno|].
  destruct (setEvent_requires_config env alice input initial_world Hno) as (H1 & _ & H2).
  by split.
Defined.

Lemma update_delete_return_true_witness :
  let env := sample_env http_500 in
  let w := perform env (alice_world http_500) (AddNote alice (js "n1")) in
  let input := UpdateNoteInput.mk (js "c111") (js "n2") in
  (∃ success, fst (updateNote env alice input w) = Return success ∧ success = true) ∧
  (∃ success, fst (deleteNote env alice (js "c111") w) = Return success ∧ success = true).
Proof.
  intros env w input.
  destruct (update_delete_return_true env alice w) as [Hupdate Hdelete].
  split; exists true; (split; [vm_compute; reflexivity|]).
  - apply (Hupdate input). vm_compute; reflexivity.
  - apply (Hdelete (js "c111")). vm_compute; reflexivity.
Defined.


(** The stand-in parser rejects ["example.com"]: the error of [new URL]
    reaches the caller of [updateWebhook], and the world is untouched. *)
Lemma updateWebhook_throws_only_on_bad_url_witness :
  let env := sample_env http_200 in
  let w := alice_world http_200 in
  let note := Note.mk (js "c111") (js "Some title") (js "n1") 1700000000000 in
  updateWebhook env (js "example.com") NOTE_CREATE note w
  = (Throw (InvalidURL (js "example.com")), w) ∧
  fst (updateWebhook env (js "https://example.com/hook") NOTE_CREATE note w) = Return tt.
Proof.
  intros env w note. split.
  - exact (proj1 (updateWebhook_throws_only_on_bad_url env Note.t _
                    (js "example.com") NOTE_CREATE note w)).
  - exact (proj1 (updateWebhook_throws_only_on_bad_url env Note.t _
                    (js "https://example.com/hook") NOTE_CREATE note w)).
Defined.

(** * Further properties of the code *)

(** ** Trimming and the input schemas *)

Section Trim.

Lemma trimStart_head c s : is_whitespace c = false → trimStart (c :: s) = c :: s.
Proof. intros Hc. simpl. by rewrite Hc. Qed.

Lemma trimStart_idemp s : trimStart (trimStart s) = trimStart s.
Proof.
  induction s as [|c s IH]; [done|]. simpl.
  destruct (is_whitespace c) eqn:Hc; [done|]. by apply trimStart_head.
Qed.

Lemma trimStart_snoc s c :
  is_whitespace c = false → trimStart (s ++ [c]) = trimStart s ++ [c].
Proof.
  intros Hc. induction s as [|c' s IH]; simpl.
  - by rewrite Hc.
  - by destruct (is_whitespace c').
Qed.

(** What [trimStart] returns starts with no white space. *)
Lemma trimStart_starts s c s' : trimStart s = c :: s' → is_whitespace c = false.
Proof.
  induction s as [|c0 s IH]; simpl; [done|].
  destruct (is_whitespace c0) eqn:Hc0; [done|]. by intros [= <- _].
Qed.

Lemma trimEnd_cons c s : is_whitespace c = false → trimEnd (c :: s) = c :: trimEnd s.
Proof.
  intros Hc. unfold trimEnd. simpl.
  by rewrite (trimStart_snoc _ _ Hc), rev_app_distr.
Qed.

Lemma trimEnd_idemp s : trimEnd (trimEnd s) = trimEnd s.
Proof. unfold trimEnd. by rewrite rev_involutive, trimStart_idemp. Qed.

Lemma trimEnd_snoc s c : is_whitespace c = false → trimEnd (s ++ [c]) = s ++ [c].
Proof.
  intros Hc. unfold trimEnd. rewrite rev_app_distr. simpl.
  rewrite Hc. simpl. by rewrite rev_involutive.
Qed.

(** What [trimEnd] returns ends with no white space. *)
Lemma trimEnd_ends s c s' : trimEnd s = s' ++ [c] → is_whitespace c = false.
Proof.
  unfold trimEnd. intros H.
  apply (f_equal (@rev N)) in H. rewrite rev_involutive, rev_app_distr in H.
  simpl in H. by apply trimStart_starts in H.
Qed.

Lemma trimStart_trimEnd s :
  trimStart s = s → trimStart (trimEnd s) = trimEnd s.
Proof.
  destruct s as [|c s]; [done|]. intros H.
  assert (is_whitespace c = false) as Hc by (by apply (trimStart_starts _ _ _ H)).
  rewrite (trimEnd_cons _ _ Hc). by apply trimStart_head.
Qed.

Lemma trim_idemp s : trim (trim s) = trim s.
Proof.
  unfold trim.
  rewrite (trimStart_trimEnd (trimStart s) (trimStart_idemp s)).
  apply trimEnd_idemp.
Qed.

Lemma trim_trimmed s : trimmed (trim s).
Proof.
  split; intros c s' H.
  - pose proof (trimStart_trimEnd (trimStart s) (trimStart_idemp s)) as Hs.
    fold (trim s) in Hs. rewrite H in Hs. by apply trimStart_starts in Hs.
  - unfold trim in H. by apply trimEnd_ends in H.
Qed.

(** A string without white space at its ends is left alone. *)
Lemma trimmed_trim s : trimmed s → trim s = s.
Proof.
  intros [Hstart Hend]. unfold trim.
  assert (trimStart s = s) as ->.
  { destruct s as [|c s']; [done|]. apply trimStart_head. by eapply Hstart. }
  destruct s as [|c s' _] using rev_ind; [done|].
  apply trimEnd_snoc. by eapply Hend.
Qed.

End Trim.

Lemma z_string_trim_min_trim n s : z_string_trim_min n (trim s) = z_string_trim_min n s.
Proof. unfold z_string_trim_min. by rewrite trim_idemp. Qed.

(** X1: what a schema [z.string().trim().min(n)] lets through is the trimmed
    input: it has at least [n] characters and no white space at either end,
    and parsing it again gives it back unchanged. *)
Theorem schema_output_is_normal n input s :
  z_string_trim_min n input = Some s →
  s = trim input ∧ n ≤ length s ∧ trimmed s ∧ z_string_trim_min n s = Some s.
Proof.
  intros H. pose proof H as Hs. apply z_string_trim_min_Some in Hs as [-> Hlen].
  split_and!; [done | done | apply trim_trimmed |].
  by rewrite z_string_trim_min_trim.
Qed.

Lemma schema_output_is_normal_witness :
  z_string_trim_min 2 (js "  hello world ") = Some (js "hello world") ∧
  trimmed (js "hello world") ∧
  z_string_trim_min 2 (js "hello world") = Some (js "hello world").
Proof.
  assert (z_string_trim_min 2 (js "  hello world ") = Some (js "hello world")) as H
    by reflexivity.
  destruct (schema_output_is_normal 2 _ _ H) as (_ & _ & Ht & Hagain).
  by split_and!.
Defined.

(** X2: white space around an input never matters: [addNote], [updateNote]
    and [deleteNote] do to the world, and return, the same for an input and
    for the input trimmed. *)
Theorem procedures_ignore_padding env ctx w :
  (∀ body, addNote env ctx (trim body) w = addNote env ctx body w) ∧
  (∀ input,
     updateNote env ctx
       (UpdateNoteInput.mk (trim (UpdateNoteInput.ID input))
          (trim (UpdateNoteInput.data input))) w
     = updateNote env ctx input w) ∧
  (∀ id, deleteNote env ctx (trim id) w = deleteNote env ctx id w).
Proof.
  split_and!.
  - intros body. by rewrite !addNote_steps, z_string_trim_min_trim.
  - intros input. rewrite !updateNote_steps. simpl.
    by rewrite z_string_trim_min_trim, trim_idemp.
  - intros id. by rewrite !deleteNote_steps, z_string_trim_min_trim.
Qed.

(** ** Which procedure touches what *)

Section Separation.
Context (env : Env).

Lemma and_then_updateHost_db {A T} `{ToJS T} ctx type (data : T) (a : A) w :
  db (snd (and_then (updateHost env (AuthedContext.upcast ctx) type data w) a)) = db w.
Proof.
  rewrite <- (updateHost_db env ctx type data w).
  unfold and_then. by destruct (updateHost _ _ _ _ _) as [[[]|e] w'].
Qed.

Lemma addNote_db ctx input w :
  db (snd (addNote env ctx input w)) =
    match z_string_trim_min 1 input with
    | Some body =>
        match stored_text env body with
        | Some data =>
            db (created (Note.mk (cuid env (serial (db w))) (js "Some title") data
                           (clock env (ticks w))) w)
        | None => db w
        end
    | None => db w
    end.
Proof.
  rewrite addNote_steps. destruct (z_string_trim_min 1 input) as [body|]; [|done].
  destruct (stored_text env body); [|done].
  simpl. apply and_then_updateHost_db.
Qed.

Lemma updateNote_db ctx input w :
  db (snd (updateNote env ctx input w)) =
    match z_string_trim_min 2 (UpdateNoteInput.data input) with
    | Some data =>
        match update_first
                (fun n => jsstring_eqb (Note.ID n) (trim (UpdateNoteInput.ID input)))
                (set_data data) (notes (db w)) with
        | Some (_, ns) => db (with_notes ns w)
        | None => db w
        end
    | None => db w
    end.
Proof.
  rewrite updateNote_steps. destruct (z_string_trim_min 2 _) as [data|]; [|done].
  change (fun n => Note.mk (Note.ID n) (Note.title n) data (Note.updatedOn n))
    with (set_data data).
  destruct (update_first _ _ _) as [[note ns]|]; [|done].
  apply and_then_updateHost_db.
Qed.

Lemma findAllNotes_db ctx w : db (snd (findAllNotes env ctx w)) = db w.
Proof. rewrite findAllNotes_steps. apply and_then_updateHost_db. Qed.

Lemma deleteNote_db ctx input w :
  db (snd (deleteNote env ctx input w)) =
    match z_string_trim_min 1 input with
    | Some id =>
        match delete_first (fun n => jsstring_eqb (Note.ID n) id) (notes (db w)) with
        | Some (_, ns) => db (with_notes ns w)
        | None => db w
        end
    | None => db w
    end.
Proof.
  rewrite deleteNote_steps. destruct (z_string_trim_min 1 input) as [id|]; [|done].
  destruct (delete_first _ _) as [[note ns]|]; [|done].
  apply and_then_updateHost_db.
Qed.

Lemma findWebhookInto_run ctx w :
  findWebhookInto ctx w = (Return (find_info (db w) (AuthedContext.userId ctx)), w).
Proof.
  unfold findWebhookInto, webhookInfo_findUnique, db_call. by rewrite set_db_same.
Qed.

End Separation.

(** X3: the note procedures never change the webhook tables, and
    [findAllNotes] changes no table at all; the configuration procedures
    never change the notes, hand nothing to [fetch], log nothing and do not
    read the clock; [getEvents] and [findWebhookInto] leave the whole world
    as it is.  This holds in every world, also when a procedure throws. *)
Theorem procedures_keep_to_their_tables env ctx w :
  (∀ body, same_webhook_tables w (snd (addNote env ctx body w))) ∧
  (∀ input, same_webhook_tables w (snd (updateNote env ctx input w))) ∧
  db (snd (findAllNotes env ctx w)) = db w ∧
  (∀ id, same_webhook_tables w (snd (deleteNote env ctx id w))) ∧
  (∀ url, notes (db (snd (setWebhookURL env ctx url w))) = notes (db w) ∧
          webhookEvents (db (snd (setWebhookURL env ctx url w))) = webhookEvents (db w) ∧
          silent w (snd (setWebhookURL env ctx url w))) ∧
  (∀ input, notes (db (snd (setEvent env ctx input w))) = notes (db w) ∧
            webhookInfos (db (snd (setEvent env ctx input w))) = webhookInfos (db w) ∧
            silent w (snd (setEvent env ctx input w))) ∧
  snd (getEvents ctx w) = w ∧
  snd (findWebhookInto ctx w) = w.
Proof.
  split_and!.
  - intros body. unfold same_webhook_tables. rewrite addNote_db.
    destruct (z_string_trim_min 1 body) as [b|]; [|done].
    by destruct (stored_text env b).
  - intros input. unfold same_webhook_tables. rewrite updateNote_db.
    destruct (z_string_trim_min 2 _); [|done].
    by destruct (update_first _ _ _) as [[note ns]|].
  - apply findAllNotes_db.
  - intros id. unfold same_webhook_tables. rewrite deleteNote_db.
    destruct (z_string_trim_min 1 id); [|done].
    by destruct (delete_first _ _) as [[note ns]|].
  - intros url. rewrite setWebhookURL_run. unfold silent.
    destruct (parseURL env url); [|done].
    by destruct (update_first _ _ _) as [[i infos]|].
  - intros input. rewrite setEvent_run. unfold silent.
    destruct (find_info _ _); [|done].
    by destruct (update_first _ _ _) as [[e es]|].
  - by rewrite getEvents_run.
  - by rewrite findWebhookInto_run.
Qed.

(** ** The webhook configuration, continued *)

Section MoreTables.
Context {A : Type}.
Implicit Types (p q : A -> bool) (f : A -> A) (l : list A).

Lemma find_app p l1 l2 :
  List.find p (l1 ++ l2)
  = match List.find p l1 with Some x => Some x | None => List.find p l2 end.
Proof.
  induction l1 as [|x l1 IH]; simpl; [done|]. by destruct (p x).
Qed.


(** A search for other rows does not see the update. *)
Lemma find_other_update_first p q f l y l' :
  update_first p f l = Some (y, l') →
  (∀ x, p x = true → q x = false ∧ q (f x) = false) →
  List.find q l' = List.find q l.
Proof.
  intros H Hq.
  destruct (update_first_Some _ _ _ _ _ H) as (l1 & x & l2 & -> & _ & Hx & _ & ->).
  destruct (Hq x Hx) as [Hqx Hqfx].
  rewrite !find_app. simpl. by rewrite Hqx, Hqfx.
Qed.


Lemma key_absent_false {B} `{EqDecision B} (k : A -> B) (b : B) l :
  b ∉ map k l → Forall (fun z => bool_decide (k z = b) = false) l.
Proof.
  intros Hb. apply Forall_forall. intros z Hz. apply bool_decide_eq_false.
  intros <-. apply Hb. apply list_elem_of_fmap. by exists z.
Qed.


Lemma delete_first_unique {B} `{EqDecision B} (k : A -> B) (b : B) l y l' :
  NoDup (map k l) →
  delete_first (fun x => bool_decide (k x = b)) l = Some (y, l') →
  y ∈ l ∧ k y = b ∧ l' = filter (fun x => k x ≠ b) l.
Proof.
  intros Hnd H.
  destruct (delete_first_Some _ _ _ _ H) as (l1 & l2 & -> & H1 & Hx & ->).
  apply bool_decide_eq_true in Hx. subst b.
  rewrite map_app in Hnd. simpl in Hnd.
  apply NoDup_app in Hnd as (_ & _ & Hnd2).
  apply NoDup_cons in Hnd2 as [Hx2 _].
  split_and!; [apply elem_of_app; right; by left | done |].
  assert (∀ l0, Forall (fun z => bool_decide (k z = k y) = false) l0 →
                filter (fun x => k x ≠ k y) l0 = l0) as Hkeep.
  { induction 1 as [|z l0 Hz _ IH]; [done|].
    apply bool_decide_eq_false in Hz. by rewrite filter_cons_True, IH. }
  rewrite filter_app, filter_cons_False by (by intros ?).
  rewrite (Hkeep _ H1). by rewrite (Hkeep _ (key_absent_false k (k y) l2 Hx2)).
Qed.
End MoreTables.




(** ** Identifiers *)

Section Identifiers.
Context (env : Env).
Hypothesis cuid_injective : ∀ m n, cuid env m = cuid env n → m = n.

Lemma ids_ok_fresh d : ids_ok env d → cuid env (serial d) ∉ all_ids d.
Proof using cuid_injective.
  intros [_ Hold] Hin. destruct (Hold _ Hin) as (k & Hk & Heq).
  apply cuid_injective in Heq. lia.
Qed.

Lemma ids_ok_add d d' :
  ids_ok env d →
  all_ids d' ≡ₚ cuid env (serial d) :: all_ids d → serial d' = S (serial d) →
  ids_ok env d'.
Proof using cuid_injective.
  intros Hok Hperm Hserial. pose proof (ids_ok_fresh d Hok) as Hfresh.
  destruct Hok as [Hnd Hold]. split.
  - rewrite Hperm. by apply NoDup_cons.
  - intros id Hid. rewrite Hperm in Hid. apply elem_of_cons in Hid as [->|Hid].
    + exists (serial d). split; [lia | done].
    + destruct (Hold id Hid) as (k & Hk & ->). exists k. split; [lia | done].
Qed.

Lemma ids_ok_keep d d' :
  ids_ok env d → all_ids d' = all_ids d → serial d' = serial d → ids_ok env d'.
Proof. intros [Hnd Hold] Hids Hserial. split; rewrite Hids, ?Hserial; done. Qed.

Lemma ids_ok_remove d d' x :
  ids_ok env d → all_ids d ≡ₚ x :: all_ids d' → serial d' = serial d → ids_ok env d'.
Proof.
  intros [Hnd Hold] Hperm Hserial. split.
  - rewrite Hperm in Hnd. by apply NoDup_cons in Hnd as [_ ?].
  - intros id Hid. rewrite Hserial. apply Hold. rewrite Hperm. by right.
Qed.

Lemma initial_ids_ok : ids_ok env empty_db.
Proof.
  split; [constructor|]. intros id Hid. by apply elem_of_nil in Hid.
Qed.

(** Every call of the service keeps the identifiers distinct. *)
Lemma perform_ids_ok w c : ids_ok env (db w) → ids_ok env (db (perform env w c)).
Proof using cuid_injective.
  intros Hok.
  destruct c as [ctx url|ctx|ctx input|ctx|ctx body|ctx input|ctx|ctx id];
    cbn [perform].
  - rewrite setWebhookURL_run. destruct (parseURL env url); [|done].
    destruct (update_first _ _ _) as [[i infos]|] eqn:Hup; simpl.
    + apply (ids_ok_keep (db w)); [done | | done]. unfold all_ids. simpl.
      by rewrite (update_first_fmap WebhookInfo.ID _ _ _ _ _ Hup (fun _ => eq_refl)).
    + apply (ids_ok_add (db w)); [done | | done]. unfold all_ids. simpl.
      rewrite map_app. simpl. solve_Permutation.
  - by rewrite findWebhookInto_run.
  - rewrite setEvent_run. destruct (find_info _ _); [|done].
    destruct (update_first _ _ _) as [[e es]|] eqn:Hup; simpl.
    + apply (ids_ok_keep (db w)); [done | | done]. unfold all_ids. simpl.
      by rewrite (update_first_fmap WebhookEvent.ID _ _ _ _ _ Hup (fun _ => eq_refl)).
    + apply (ids_ok_add (db w)); [done | | done]. unfold all_ids. simpl.
      rewrite map_app. simpl. solve_Permutation.
  - by rewrite getEvents_run.
  - rewrite addNote_db. destruct (z_string_trim_min 1 body) as [b|]; [|done].
    destruct (stored_text env b); [|done].
    apply (ids_ok_add (db w)); [done | | done]. unfold all_ids. simpl.
    rewrite map_app. simpl. solve_Permutation.
  - rewrite updateNote_db. destruct (z_string_trim_min 2 _); [|done].
    destruct (update_first _ _ _) as [[note ns]|] eqn:Hup; [|done].
    apply (ids_ok_keep (db w)); [done | | done]. unfold all_ids. simpl.
    by rewrite (update_first_fmap Note.ID _ _ _ _ _ Hup (fun _ => eq_refl)).
  - by rewrite findAllNotes_db.
  - rewrite deleteNote_db. destruct (z_string_trim_min 1 id); [|done].
    destruct (delete_first _ _) as [[note ns]|] eqn:Hdel; [|done].
    apply delete_first_Some in Hdel as (l1 & l2 & Hl & _ & _ & ->).
    apply (ids_ok_remove (db w) _ (Note.ID note)); [done | | done].
    unfold all_ids. simpl. rewrite Hl, !map_app. simpl. solve_Permutation.
Qed.

Lemma reachable_ids_ok calls : ids_ok env (db (perform_all env initial_world calls)).
Proof using cuid_injective.
  assert (∀ w, ids_ok env (db w) → ids_ok env (db (perform_all env w calls))) as H.
  { induction calls as [|c calls IH]; simpl; intros w Hok; [done|].
    apply IH. by apply perform_ids_ok. }
  apply H. apply initial_ids_ok.
Qed.

Lemma all_ids_NoDup d :
  NoDup (all_ids d) →
  NoDup (map Note.ID (notes d)) ∧ NoDup (map WebhookInfo.ID (webhookInfos d)) ∧
  NoDup (map WebhookEvent.ID (webhookEvents d)).
Proof.
  unfold all_ids. intros H.
  apply NoDup_app in H as (H1 & _ & H). by apply NoDup_app in H as (H2 & _ & H3).
Qed.

End Identifiers.

Lemma sample_cuid_ok o : cuid_ok (sample_env o).
Proof.
  split; simpl; unfold sample_cuid.
  - intros m n H. apply (f_equal length) in H. simpl in H.
    rewrite !length_replicate in H. lia.
  - intros n. apply trimmed_trim. split; intros c s' H.
    + simpl in H. by injection H as <- _.
    + destruct n as [|n].
      * destruct s' as [|? [|? ?]]; simpl in H; [by injection H as <- | done | done].
      * rewrite replicate_S_end, app_assoc in H.
        apply app_inj_tail in H as [_ <-]. done.
  - done.
Qed.

(** X6: when the generator of identifiers never repeats itself, the
    identifiers of the stored rows are pairwise distinct, within each table
    and across the tables, after any sequence of calls from the empty
    store, deletions included. *)
Theorem reachable_ids_distinct env calls :
  (∀ m n, cuid env m = cuid env n → m = n) →
  let d := db (perform_all env initial_world calls) in
  NoDup (all_ids d) ∧
  NoDup (map Note.ID (notes d)) ∧
  NoDup (map WebhookInfo.ID (webhookInfos d)) ∧
  NoDup (map WebhookEvent.ID (webhookEvents d)).
Proof.
  intros Hinj d. destruct (reachable_ids_ok env Hinj calls) as [Hnd _].
  split; [done|]. by apply all_ids_NoDup.
Qed.

Lemma reachable_ids_distinct_witness :
  let env := sample_env http_200 in
  let d := db (notes_world http_200) in
  (∀ m n, cuid env m = cuid env n → m = n) ∧
  NoDup (all_ids d) ∧ NoDup (map Note.ID (notes d)).
Proof.
  intros env d.
  pose proof (cuid_inj _ (sample_cuid_ok http_200)) as Hinj.
  destruct (reachable_ids_distinct env notes_calls Hinj) as (H1 & H2 & _).
  split; [exact Hinj | split; [exact H1 | exact H2]].
Defined.

(** ** One user's settings and another's *)

Section Isolation.
Context (env : Env).

Lemma events_of_update_other d i es y key ev f :
  update_first (event_where key ev) f (webhookEvents d) = Some (y, es) →
  (∀ e, WebhookEvent.webhookInfoID (f e) = WebhookEvent.webhookInfoID e) →
  WebhookInfo.ID i ≠ key →
  events_of (mkDB (notes d) (webhookInfos d) es (serial d)) i = events_of d i.
Proof.
  intros Hup Hf Hne. unfold events_of. simpl.
  apply update_first_Some in Hup as (l1 & x & l2 & -> & _ & Hx & _ & ->).
  apply event_where_true in Hx. injection Hx as Hx _.
  rewrite !filter_app. f_equal.
  rewrite !filter_cons_False; [done | congruence | rewrite Hf; congruence].
Qed.

Lemma events_of_insert_other d i e n :
  WebhookInfo.ID i ≠ WebhookEvent.webhookInfoID e →
  events_of (mkDB (notes d) (webhookInfos d) (webhookEvents d ++ [e]) n) i = events_of d i.
Proof.
  intros Hne. unfold events_of. simpl.
  rewrite filter_app, filter_cons_False by congruence. by rewrite app_nil_r.
Qed.

Lemma find_info_setWebhookURL_other ctx other url w :
  AuthedContext.userId other ≠ AuthedContext.userId ctx →
  find_info (db (snd (setWebhookURL env ctx url w))) (AuthedContext.userId other)
  = find_info (db w) (AuthedContext.userId other).
Proof.
  intros Hne. rewrite setWebhookURL_run. destruct (parseURL env url); [|done].
  destruct (update_first _ _ _) as [[i infos]|] eqn:Hup; simpl; unfold find_info; simpl.
  - apply (find_other_update_first _ _ _ _ _ _ Hup).
    intros x Hx. apply jsstring_eqb_true in Hx.
    split; apply jsstring_eqb_false; simpl; congruence.
  - rewrite find_app. simpl.
    destruct (List.find _ (webhookInfos (db w))); [done|].
    unfold jsstring_eqb. by rewrite bool_decide_eq_false_2.
Qed.

(** Two users' configurations carry different identifiers. *)
Lemma other_info_other_id d i j :
  NoDup (map WebhookInfo.ID (webhookInfos d)) →
  i ∈ webhookInfos d → j ∈ webhookInfos d →
  WebhookInfo.userID i ≠ WebhookInfo.userID j → WebhookInfo.ID i ≠ WebhookInfo.ID j.
Proof.
  intros Hnd Hi Hj Hu Hid. apply Hu.
  by rewrite (NoDup_key_inj WebhookInfo.ID _ i j Hnd Hi Hj Hid).
Qed.

Lemma getEvents_setEvent_other ctx other input w :
  NoDup (map WebhookInfo.ID (webhookInfos (db w))) →
  AuthedContext.userId other ≠ AuthedContext.userId ctx →
  fst (getEvents other (snd (setEvent env ctx input w))) = fst (getEvents other w).
Proof.
  intros Hnd Hne. rewrite !getEvents_run. simpl. rewrite setEvent_run.
  destruct (find_info (db w) (AuthedContext.userId ctx)) as [info|] eqn:Hinfo;
    [|done].
  apply find_info_Some in Hinfo as [Hinfo Hu].
  assert (∀ j, find_info (db w) (AuthedContext.userId other) = Some j →
               WebhookInfo.ID j ≠ WebhookInfo.ID info) as Hids.
  { intros j Hj. apply find_info_Some in Hj as [Hj Hv].
    apply (other_info_other_id (db w)); [done | done | done | congruence]. }
  destruct (update_first _ _ _) as [[e es]|] eqn:Hup; simpl; unfold find_info; simpl;
    fold (find_info (db w) (AuthedContext.userId other));
    destruct (find_info (db w) (AuthedContext.userId other)) as [j|]; try done;
    f_equal.
  - apply (events_of_update_other (db w) j es e _ _ _ Hup); [done | by apply Hids].
  - apply events_of_insert_other. simpl. by apply Hids.
Qed.

End Isolation.

(** X7: what one user does to their configuration is invisible to every
    other user: after [setWebhookURL] by one user, and, where the
    configurations carry distinct identifiers, after [setEvent] by one user,
    [findWebhookInto] and [getEvents] return to any other user what they
    returned before. *)
Theorem other_users_config_untouched env ctx other w :
  AuthedContext.userId other ≠ AuthedContext.userId ctx →
  (∀ url,
     let w' := snd (setWebhookURL env ctx url w) in
     fst (findWebhookInto other w') = fst (findWebhookInto other w) ∧
     fst (getEvents other w') = fst (getEvents other w)) ∧
  (NoDup (map WebhookInfo.ID (webhookInfos (db w))) →
   ∀ input,
     let w' := snd (setEvent env ctx input w) in
     fst (findWebhookInto other w') = fst (findWebhookInto other w) ∧
     fst (getEvents other w') = fst (getEvents other w)).
Proof.
  intros Hne. split.
  - intros url w'. subst w'. rewrite !findWebhookInto_run, !getEvents_run. simpl.
    rewrite (find_info_setWebhookURL_other env ctx other url w Hne).
    split; [done|].
    destruct (find_info (db w) (AuthedContext.userId other)) as [j|]; [|done].
    f_equal. unfold events_of. f_equal.
    rewrite setWebhookURL_run. destruct (parseURL env url); [|done].
    by destruct (update_first _ _ _) as [[i infos]|].
  - intros Hnd input w'. subst w'. split.
    + rewrite !findWebhookInto_run. simpl. unfold find_info. do 2 f_equal.
      rewrite setEvent_run. destruct (find_info _ _); [|done].
      by destruct (update_first _ _ _) as [[e es]|].
    + by apply getEvents_setEvent_other.
Qed.

Lemma other_users_config_untouched_witness :
  let env := sample_env http_200 in
  let w := perform env (alice_world http_200)
             (SetWebhookURL bob (js "https://bob.example/hook")) in
  let w' := snd (setEvent env bob (SetEventInput.mk NOTE_CREATE false) w) in
  AuthedContext.userId alice ≠ AuthedContext.userId bob ∧
  NoDup (map WebhookInfo.ID (webhookInfos (db w))) ∧
  fst (getEvents alice w') = fst (getEvents alice w).
Proof.
  intros env w w'.
  assert (AuthedContext.userId alice ≠ AuthedContext.userId bob) as Hne by done.
  assert (NoDup (map WebhookInfo.ID (webhookInfos (db w)))) as Hnd.
  { apply (all_ids_NoDup (db w)).
    apply (reachable_ids_ok env (cuid_inj _ (sample_cuid_ok http_200))
             [SetWebhookURL alice (js "https://example.com/hook");
              SetEvent alice (SetEventInput.mk NOTE_CREATE true);
              SetEvent alice (SetEventInput.mk NOTE_DELETE false);
              SetWebhookURL bob (js "https://bob.example/hook")]). }
  destruct (other_users_config_untouched env bob alice w Hne) as [_ Hevent].
  split_and!; [done | done |].
  exact (proj2 (Hevent Hnd (SetEventInput.mk NOTE_CREATE false))).
Defined.

(** ** Event settings, the notifier and the checkboxes *)

Section Settings.
Context (env : Env).

Lemma existsb_false_iff {A} (p : A -> bool) l :
  existsb p l = false ↔ ∀ x, x ∈ l → p x = false.
Proof.
  induction l as [|y l IH]; simpl.
  - split; [intros _ x Hx; by apply elem_of_nil in Hx | done].
  - rewrite orb_false_iff, IH. split.
    + intros [Hy Hl] x Hx. apply elem_of_cons in Hx as [->|Hx]; [done | by apply Hl].
    + intros H. split; [apply H; by left | intros x Hx; apply H; by right].
Qed.

Lemma existsb_true_elem {A} (p : A -> bool) l x : x ∈ l → p x = true → existsb p l = true.
Proof. intros Hx Hp. apply existsb_exists. exists x. by rewrite <- list_elem_of_In. Qed.

(** Among the settings of one configuration there is one row per event. *)
Lemma events_of_same_event d i e1 e2 :
  unique_event_keys d → e1 ∈ events_of d i → e2 ∈ events_of d i →
  WebhookEvent.event e1 = WebhookEvent.event e2 → e1 = e2.
Proof.
  intros Hnd H1 H2 Hev.
  apply elem_of_events_of in H1 as [Hw1 H1]. apply elem_of_events_of in H2 as [Hw2 H2].
  apply (NoDup_key_inj event_key (webhookEvents d)); [done | done | done |].
  unfold event_key. congruence.
Qed.

(** The checkbox of an event shows what the notifier decides. *)
Lemma event_toggle_events_of d i type :
  unique_event_keys d →
  HomeComponent.event_toggle (events_of d i) type = existsb (wanted type) (events_of d i).
Proof.
  intros Hnd. unfold HomeComponent.event_toggle.
  destruct (List.find _ _) as [e|] eqn:Hfind.
  - apply find_Some_elem in Hfind as [He Hev]. apply bool_decide_eq_true in Hev.
    destruct (WebhookEvent.enabled e) eqn:Hen.
    + symmetry. apply (existsb_true_elem _ _ e He). by apply wanted_true.
    + symmetry. apply existsb_false_iff. intros e' He'.
      destruct (wanted type e') eqn:Hw; [|done].
      apply wanted_true in Hw as [Hev' Hen'].
      assert (e' = e) as -> by (apply (events_of_same_event d i); [done..|congruence]).
      congruence.
  - symmetry. apply existsb_false_iff. intros e' He'.
    apply find_None in Hfind. rewrite Forall_forall in Hfind.
    specialize (Hfind e' He'). apply bool_decide_eq_false in Hfind.
    unfold wanted. by rewrite bool_decide_eq_false_2.
Qed.

Lemma event_toggle_subscribed ctx w type events :
  unique_event_keys (db w) →
  fst (getEvents ctx w) = Return events →
  HomeComponent.event_toggle events type
  = subscribed (db w) (AuthedContext.userId ctx) type.
Proof.
  intros Hnd. rewrite getEvents_run. simpl. intros [= <-]. unfold subscribed.
  destruct (find_info _ _) as [i|]; [|done]. by apply event_toggle_events_of.
Qed.

(** What [setEvent] does to the rows of the other events: nothing. *)
Lemma setEvent_other_rows ctx input w type :
  type ≠ SetEventInput.event input →
  filter (fun e => WebhookEvent.event e = type)
    (webhookEvents (db (snd (setEvent env ctx input w))))
  = filter (fun e => WebhookEvent.event e = type) (webhookEvents (db w)).
Proof.
  intros Hne. rewrite setEvent_run. destruct (find_info _ _) as [info|]; [|done].
  destruct (update_first _ _ _) as [[e es]|] eqn:Hup; simpl.
  - apply update_first_Some in Hup as (l1 & x & l2 & -> & _ & Hx & _ & ->).
    apply event_where_true in Hx. injection Hx as _ Hx.
    rewrite !filter_app. f_equal.
    rewrite !filter_cons_False; [done | congruence | simpl; congruence].
  - rewrite filter_app, filter_cons_False by (simpl; congruence).
    by rewrite app_nil_r.
Qed.

Lemma setEvent_infos ctx input w :
  webhookInfos (db (snd (setEvent env ctx input w))) = webhookInfos (db w).
Proof.
  rewrite setEvent_run. destruct (find_info _ _); [|done].
  by destruct (update_first _ _ _) as [[e es]|].
Qed.

(** The settings of one event in one configuration. *)
Lemma events_of_filter d i type :
  filter (fun e => WebhookEvent.event e = type) (events_of d i)
  = filter (fun e => WebhookEvent.webhookInfoID e = WebhookInfo.ID i)
      (filter (fun e => WebhookEvent.event e = type) (webhookEvents d)).
Proof.
  unfold events_of. rewrite !list_filter_filter. apply list_filter_iff. tauto.
Qed.

Lemma existsb_wanted_filter type l :
  existsb (wanted type) l
  = existsb (wanted type) (filter (fun e => WebhookEvent.event e = type) l).
Proof.
  induction l as [|e l IH]; [done|]. simpl. rewrite filter_cons.
  destruct (decide (WebhookEvent.event e = type)) as [He|He]; simpl.
  - by rewrite IH.
  - unfold wanted at 1. by rewrite bool_decide_eq_false_2.
Qed.

Lemma event_toggle_filter type l :
  HomeComponent.event_toggle l type
  = HomeComponent.event_toggle (filter (fun e => WebhookEvent.event e = type) l) type.
Proof.
  unfold HomeComponent.event_toggle.
  induction l as [|e l IH]; [done|]. simpl. rewrite filter_cons.
  destruct (decide (WebhookEvent.event e = type)) as [He|He]; simpl.
  - by rewrite bool_decide_eq_true_2.
  - by rewrite bool_decide_eq_false_2.
Qed.

End Settings.

(** X8: toggling one event leaves the settings of every other event as they
    were, for every user: the rows of another event are unchanged, and so is
    the notifier's decision for it. *)
Theorem setEvent_leaves_other_events env ctx input w type :
  type ≠ SetEventInput.event input →
  let w' := snd (setEvent env ctx input w) in
  filter (fun e => WebhookEvent.event e = type) (webhookEvents (db w'))
  = filter (fun e => WebhookEvent.event e = type) (webhookEvents (db w)) ∧
  ∀ userID, subscribed (db w') userID type = subscribed (db w) userID type.
Proof.
  intros Hne w'. pose proof (setEvent_other_rows env ctx input w type Hne) as Hrows.
  split; [done|]. intros userID. unfold subscribed, find_info. subst w'.
  rewrite setEvent_infos.
  destruct (List.find _ _) as [i|]; [|done].
  rewrite (existsb_wanted_filter type (events_of _ i)).
  rewrite (existsb_wanted_filter type (events_of (db w) i)).
  by rewrite !events_of_filter, Hrows.
Qed.

Lemma setEvent_leaves_other_events_witness :
  let env := sample_env http_200 in
  let w := alice_world http_200 in
  let w' := snd (setEvent env alice (SetEventInput.mk NOTE_READ true) w) in
  NOTE_CREATE ≠ NOTE_READ ∧
  subscribed (db w') (js "alice") NOTE_CREATE = subscribed (db w) (js "alice") NOTE_CREATE.
Proof.
  intros env w w'.
  assert (NOTE_CREATE ≠ NOTE_READ) as Hne by done.
  split; [done|].
  exact (proj2 (setEvent_leaves_other_events env alice (SetEventInput.mk NOTE_READ true)
                  w NOTE_CREATE Hne) (js "alice")).
Defined.

Lemma setEvent_subscribed env ctx input w :
  store_ok env (db w) →
  ¬ no_config (db w) (AuthedContext.userId ctx) →
  subscribed (db (snd (setEvent env ctx input w))) (AuthedContext.userId ctx)
    (SetEventInput.event input)
  = SetEventInput.enabled input.
Proof.
  intros Hok Hconfig. set (w' := snd (setEvent env ctx input w)).
  destruct (find_info (db w) (AuthedContext.userId ctx)) as [info|] eqn:Hinfo;
    [|by apply find_info_None in Hinfo].
  pose proof (setEvent_store_ok env ctx input w Hok) as Hok'. fold w' in Hok'.
  destruct (setEvent_row env ctx input w info Hinfo)
    as (row & _ & Hrow & Hkey & Hen & Hinfos & _).
  fold w' in Hrow, Hinfos.
  assert (find_info (db w') (AuthedContext.userId ctx) = Some info) as Hinfo'.
  { unfold find_info. by rewrite Hinfos. }
  injection Hkey as Hwid Hev.
  assert (row ∈ events_of (db w') info) as Hrow' by (by apply elem_of_events_of).
  unfold subscribed. rewrite Hinfo'. rewrite <- Hen.
  destruct (WebhookEvent.enabled row) eqn:Hrowen.
  - apply (existsb_true_elem _ _ row Hrow'). by apply wanted_true.
  - apply existsb_false_iff. intros e He.
    destruct (wanted (SetEventInput.event input) e) eqn:Hw; [|done].
    apply wanted_true in Hw as [Hev' Hen'].
    assert (e = row) as ->.
    { apply (events_of_same_event (db w') info); [apply Hok' | done | done | congruence]. }
    congruence.
Qed.

(** The number of requests of the notifier, from its decision. *)
Lemma updateHost_sent_count env {T} `{ToJS T} ctx type (data : T) w :
  urls_parse env (db w) →
  length (sent (updateHost env (AuthedContext.upcast ctx) type data) w)
  = if subscribed (db w) (AuthedContext.userId ctx) type then 1 else 0.
Proof.
  intros Hurls.
  pose proof (updateHost_notified env ctx type data w Hurls) as Hrun.
  destruct (subscribed _ _ _) eqn:Hsub.
  - destruct (notified_subscribed env _ _ (to_js data) w Hurls Hsub)
      as (i & href & _ & _ & Hn).
    rewrite Hn in Hrun. by rewrite (sent_delivered env _ _ _ _ _ _ _ Hrun eq_refl).
  - rewrite (notified_unsubscribed env _ _ (to_js data) w Hsub) in Hrun.
    rewrite sent_unchanged; [done | by rewrite Hrun].
Qed.

(** X9: on a well-formed store, once a user with a configuration has set an
    event, the notifier follows the flag: invoked for that event and that
    user it hands one request to [fetch] if the flag is [true] and none if
    it is [false]. *)
Theorem setEvent_then_notifier env ctx input w :
  store_ok env (db w) →
  ¬ no_config (db w) (AuthedContext.userId ctx) →
  let w' := snd (setEvent env ctx input w) in
  subscribed (db w') (AuthedContext.userId ctx) (SetEventInput.event input)
  = SetEventInput.enabled input ∧
  ∀ T (H : ToJS T) (data : T),
    length (sent (updateHost env (AuthedContext.upcast ctx)
                    (SetEventInput.event input) data) w')
    = if SetEventInput.enabled input then 1 else 0.
Proof.
  intros Hok Hconfig w'.
  pose proof (setEvent_subscribed env ctx input w Hok Hconfig) as Hsub. fold w' in Hsub.
  pose proof (setEvent_store_ok env ctx input w Hok) as Hok'. fold w' in Hok'.
  split; [done|]. intros T H data.
  by rewrite (updateHost_sent_count env ctx _ data w' (ok_urls _ _ Hok')), Hsub.
Qed.

Lemma setEvent_then_notifier_witness :
  let env := sample_env http_200 in
  let w := alice_world http_200 in
  let w' := snd (setEvent env alice (SetEventInput.mk NOTE_CREATE false) w) in
  store_ok env (db w) ∧ ¬ no_config (db w) (AuthedContext.userId alice) ∧
  subscribed (db w') (AuthedContext.userId alice) NOTE_CREATE = false ∧
  length (sent (updateHost env (AuthedContext.upcast alice) NOTE_CREATE
                  (notes (db w'))) w') = 0.
Proof.
  intros env w w'.
  pose proof (alice_world_ok http_200) as Hok.
  assert (¬ no_config (db w) (AuthedContext.userId alice)) as Hconfig.
  { intros Hno.
    apply (Hno (WebhookInfo.mk (js "c") (js "alice") (js "https://example.com/hook")));
      [by left | done]. }
  destruct (setEvent_then_notifier env alice (SetEventInput.mk NOTE_CREATE false) w
              Hok Hconfig) as [Hsub Hsent].
  split_and!; [done | done | done |].
  exact (Hsent (list Note.t) _ (notes (db w'))).
Defined.

(** X10: on a store with one configuration per user and one setting per
    configuration and event, the checkbox that the client derives from
    [getEvents] for an event is checked exactly when the user has an enabled
    setting of that event, that is, exactly when the notifier would send. *)
Theorem checkbox_shows_notifier_decision env ctx w type events :
  unique_users (db w) → unique_event_keys (db w) →
  fst (getEvents ctx w) = Return events →
  (HomeComponent.event_toggle events type = true
   ↔ has_enabled_setting (db w) (AuthedContext.userId ctx) type) ∧
  (∀ T (H : ToJS T) (data : T),
     urls_parse env (db w) →
     length (sent (updateHost env (AuthedContext.upcast ctx) type data) w)
     = if HomeComponent.event_toggle events type then 1 else 0).
Proof.
  intros Hu Hk Hget.
  pose proof (event_toggle_subscribed ctx w type events Hk Hget) as Htoggle.
  split.
  - rewrite Htoggle. by apply subscribed_iff.
  - intros T H data Hurls. rewrite Htoggle. by apply updateHost_sent_count.
Qed.

Lemma checkbox_shows_notifier_decision_witness :
  let env := sample_env http_200 in
  let w := alice_world http_200 in
  let events := [WebhookEvent.mk (js "c1") (js "c") NOTE_CREATE true;
                 WebhookEvent.mk (js "c11") (js "c") NOTE_DELETE false] in
  unique_users (db w) ∧ unique_event_keys (db w) ∧
  fst (getEvents alice w) = Return events ∧
  (HomeComponent.event_toggle events NOTE_DELETE = true
   ↔ has_enabled_setting (db w) (AuthedContext.userId alice) NOTE_DELETE).
Proof.
  intros env w events.
  pose proof (alice_world_ok http_200) as [Hu Hk _ _].
  assert (fst (getEvents alice w) = Return events) as Hget by reflexivity.
  split_and!; [done | done | done |].
  exact (proj1 (checkbox_shows_notifier_decision env alice w NOTE_DELETE events
                  Hu Hk Hget)).
Defined.

(** X11: a click on the checkbox of an event, by a user with a
    configuration on a well-formed store, is stored as shown: the checkbox
    derived from the next [getEvents] shows the negated value, and the
    checkboxes of the other events show what they showed. *)
Theorem checkbox_click_round_trip env ctx w type value :
  store_ok env (db w) →
  ¬ no_config (db w) (AuthedContext.userId ctx) →
  let w' := snd (setEvent env ctx (HomeComponent.checkbox_onChange type value) w) in
  ∃ events events',
    fst (getEvents ctx w) = Return events ∧
    fst (getEvents ctx w') = Return events' ∧
    HomeComponent.event_toggle events' type = negb value ∧
    ∀ other, other ≠ type →
             HomeComponent.event_toggle events' other
             = HomeComponent.event_toggle events other.
Proof.
  intros Hok Hconfig w'.
  set (input := HomeComponent.checkbox_onChange type value) in *.
  pose proof (setEvent_store_ok env ctx input w Hok) as Hok'. fold w' in Hok'.
  rewrite !getEvents_run. simpl.
  assert (find_info (db w') (AuthedContext.userId ctx)
          = find_info (db w) (AuthedContext.userId ctx)) as Hfind.
  { unfold find_info, w'. by rewrite setEvent_infos. }
  eexists _, _. split_and!; [done | done | |].
  - rewrite (event_toggle_subscribed ctx w' type _ (ok_event_keys _ _ Hok')
               ltac:(by rewrite getEvents_run)).
    apply (setEvent_subscribed env ctx input w Hok Hconfig).
  - intros other Hother. rewrite Hfind.
    destruct (find_info (db w) (AuthedContext.userId ctx)) as [i|]; [|done].
    rewrite (event_toggle_filter other (events_of (db w') i)).
    rewrite (event_toggle_filter other (events_of (db w) i)).
    rewrite !events_of_filter. unfold w'.
    by rewrite (setEvent_other_rows env ctx input w other Hother).
Qed.

Lemma checkbox_click_round_trip_witness :
  let env := sample_env http_200 in
  let w := alice_world http_200 in
  let w' := snd (setEvent env alice (HomeComponent.checkbox_onChange NOTE_READ false) w) in
  store_ok env (db w) ∧ ¬ no_config (db w) (AuthedContext.userId alice) ∧
  ∃ events events',
    fst (getEvents alice w) = Return events ∧
    fst (getEvents alice w') = Return events' ∧
    HomeComponent.event_toggle events' NOTE_READ = true ∧
    ∀ other, other ≠ NOTE_READ →
             HomeComponent.event_toggle events' other
             = HomeComponent.event_toggle events other.
Proof.
  intros env w w'.
  pose proof (alice_world_ok http_200) as Hok.
  assert (¬ no_config (db w) (AuthedContext.userId alice)) as Hconfig.
  { intros Hno.
    apply (Hno (WebhookInfo.mk (js "c") (js "alice") (js "https://example.com/hook")));
      [by left | done]. }
  split_and!; [done | done |].
  exact (checkbox_click_round_trip env alice w NOTE_READ false Hok Hconfig).
Defined.

(** ** The notes table *)

Section NotesTable.
Context (env : Env).

Lemma and_then_Return {A} (r : Completion unit * World) (a b : A) :
  fst (and_then r a) = Return b → a = b ∧ fst r = Return tt.
Proof. destruct r as [[[]|e] w']; simpl; [by intros [= ->] | done]. Qed.


Lemma deleteNote_stored ctx id w :
  1 ≤ length (trim id) →
  ∀ note ns,
    delete_first (fun n => bool_decide (Note.ID n = trim id)) (notes (db w))
    = Some (note, ns) →
    notes (db (snd (deleteNote env ctx id w))) = ns.
Proof.
  intros Hlen note ns Hdel. rewrite deleteNote_db.
  assert (z_string_trim_min 1 id = Some (trim id)) as ->
    by (by apply z_string_trim_min_Some).
  unfold jsstring_eqb. by rewrite Hdel.
Qed.

Lemma deleteNote_returned ctx id w success :
  fst (deleteNote env ctx id w) = Return success →
  ∃ note ns,
    1 ≤ length (trim id) ∧
    delete_first (fun n => bool_decide (Note.ID n = trim id)) (notes (db w))
    = Some (note, ns) ∧
    notes (db (snd (deleteNote env ctx id w))) = ns ∧ success = true.
Proof.
  intros Hret. pose proof (deleteNote_db env ctx id w) as Hdb.
  rewrite deleteNote_steps in Hret.
  destruct (z_string_trim_min 1 id) as [id'|] eqn:Hparse; [|done].
  apply z_string_trim_min_Some in Hparse as [-> Hlen].
  unfold jsstring_eqb in Hret, Hdb.
  destruct (delete_first _ _) as [[note ns]|] eqn:Hdel; [|done].
  apply and_then_Return in Hret as [<- _].
  exists note, ns. by rewrite Hdb.
Qed.

Lemma addNote_returned ctx body w note :
  fst (addNote env ctx body w) = Return note →
  1 ≤ length (trim body) ∧
  ∃ data,
    stored_text env (trim body) = Some data ∧
    note = Note.mk (cuid env (serial (db w))) (js "Some title") data
             (clock env (ticks w)) ∧
    db (snd (addNote env ctx body w)) = db (created note w).
Proof.
  intros Hret. pose proof (addNote_db env ctx body w) as Hdb.
  rewrite addNote_steps in Hret.
  destruct (z_string_trim_min 1 body) as [b|] eqn:Hparse; [|done].
  apply z_string_trim_min_Some in Hparse as [-> Hlen].
  destruct (stored_text env (trim body)) as [data|]; [|done].
  simpl in Hret. apply and_then_Return in Hret as [<- _].
  split; [done|]. exists data. by rewrite Hdb.
Qed.

Lemma delete_first_last {A} (p : A -> bool) l x :
  Forall (fun z => p z = false) l → p x = true →
  delete_first p (l ++ [x]) = Some (x, l).
Proof.
  intros Hl Hx. induction Hl as [|z l Hz _ IH]; simpl.
  - by rewrite Hx.
  - by rewrite Hz, IH.
Qed.

End NotesTable.



(** X13: where the notes carry distinct identifiers, a returning
    [deleteNote] has removed the note with the (trimmed) identifier, which
    was there, and no other: the table is the old one without that
    identifier, one row shorter. *)
Theorem deleteNote_removes_the_note env ctx id w success :
  NoDup (map Note.ID (notes (db w))) →
  fst (deleteNote env ctx id w) = Return success →
  let notes' := notes (db (snd (deleteNote env ctx id w))) in
  notes' = filter (fun n => Note.ID n ≠ trim id) (notes (db w)) ∧
  (∃ n, n ∈ notes (db w) ∧ Note.ID n = trim id) ∧
  length (notes (db w)) = S (length notes').
Proof.
  intros Hnd Hret notes'. subst notes'.
  destruct (deleteNote_returned env ctx id w success Hret)
    as (note & ns & _ & Hdel & -> & _).
  destruct (delete_first_unique Note.ID _ _ _ _ Hnd Hdel) as (Hin & Hid & Hns).
  split_and!; [done | by exists note |].
  apply delete_first_Some in Hdel as (l1 & l2 & -> & _ & _ & ->).
  rewrite !length_app. simpl. lia.
Qed.

Lemma deleteNote_removes_the_note_witness :
  let env := sample_env http_200 in
  let w := notes_world http_200 in
  NoDup (map Note.ID (notes (db w))) ∧
  fst (deleteNote env bob (js "c111") w) = Return true ∧
  notes (db (snd (deleteNote env bob (js "c111") w)))
  = filter (fun n => Note.ID n ≠ trim (js "c111")) (notes (db w)).
Proof.
  intros env w.
  assert (NoDup (map Note.ID (notes (db w)))) as Hnd.
  { apply (all_ids_NoDup (db w)).
    apply (reachable_ids_ok env (cuid_inj _ (sample_cuid_ok http_200)) notes_calls). }
  assert (fst (deleteNote env bob (js "c111") w) = Return true) as Hret
    by (vm_compute; reflexivity).
  split; [exact Hnd | split; [exact Hret|]].
  exact (proj1 (deleteNote_removes_the_note env bob (js "c111") w true Hnd Hret)).
Defined.

(** X14: with a well-behaved generator of identifiers and distinct
    identifiers in store, deleting the note that [addNote] has just returned,
    through the identifier it carries and by whichever user, gives back the
    notes table of before the creation. *)
Theorem addNote_then_deleteNote env ctx ctx' body note w :
  cuid_ok env → ids_ok env (db w) →
  fst (addNote env ctx body w) = Return note →
  let w1 := snd (addNote env ctx body w) in
  notes (db w1) = notes (db w) ++ [note] ∧
  notes (db (snd (deleteNote env ctx' (Note.ID note) w1))) = notes (db w).
Proof.
  intros [Hinj Htrim Hne] Hok Hret w1.
  destruct (addNote_returned env ctx body w note Hret) as (_ & data & _ & Hnote & Hdb).
  fold w1 in Hdb.
  assert (notes (db w1) = notes (db w) ++ [note]) as Hnotes by (by rewrite Hdb).
  split; [done|].
  assert (Note.ID note = cuid env (serial (db w))) as Hid by (by rewrite Hnote).
  assert (trim (Note.ID note) = Note.ID note) as Hstable by (by rewrite Hid).
  assert (1 ≤ length (trim (Note.ID note))) as Hlen.
  { rewrite Hstable, Hid. specialize (Hne (serial (db w))).
    destruct (cuid env (serial (db w))); [done | simpl; lia]. }
  apply (deleteNote_stored env ctx' (Note.ID note) w1 Hlen note (notes (db w))).
  rewrite Hstable, Hnotes. apply delete_first_last.
  - apply Forall_forall. intros n Hn. apply bool_decide_eq_false. intros Hsame.
    apply (ids_ok_fresh env Hinj (db w) Hok). rewrite <- Hid, <- Hsame.
    unfold all_ids. apply elem_of_app. left. apply list_elem_of_fmap. by exists n.
  - by apply bool_decide_eq_true.
Qed.

Lemma addNote_then_deleteNote_witness :
  let env := sample_env http_500 in
  let w := notes_world http_500 in
  let note := Note.mk (js "c11111") (js "Some title") (js "third") 1700000000003 in
  let w1 := snd (addNote env alice (js "third") w) in
  cuid_ok env ∧ ids_ok env (db w) ∧
  fst (addNote env alice (js "third") w) = Return note ∧
  notes (db (snd (deleteNote env bob (Note.ID note) w1))) = notes (db w).
Proof.
  intros env w note w1.
  pose proof (sample_cuid_ok http_500) as Hcuid.
  pose proof (reachable_ids_ok env (cuid_inj _ Hcuid) notes_calls) as Hok.
  assert (fst (addNote env alice (js "third") w) = Return note) as Hret
    by (vm_compute; reflexivity).
  split; [exact Hcuid | split; [exact Hok | split; [exact Hret|]]].
  exact (proj2 (addNote_then_deleteNote env alice bob (js "third") note w Hcuid Hok Hret)).
Defined.

(** X15: notes belong to nobody: a note that one user has created is in the
    list that [findAllNotes] returns to any other user, and any other user's
    [deleteNote] with its identifier removes a note (the table is back to
    its length of before the creation). *)
Theorem notes_are_shared env ctx other body note w :
  cuid_ok env →
  fst (addNote env ctx body w) = Return note →
  let w1 := snd (addNote env ctx body w) in
  (∀ found, fst (findAllNotes env other w1) = Return found → note ∈ found) ∧
  db (snd (findAllNotes env other w1)) = db w1 ∧
  length (notes (db (snd (deleteNote env other (Note.ID note) w1))))
  = length (notes (db w)).
Proof.
  intros [Hinj Htrim Hne] Hret w1.
  destruct (addNote_returned env ctx body w note Hret) as (_ & data & _ & Hnote & Hdb).
  fold w1 in Hdb.
  assert (notes (db w1) = notes (db w) ++ [note]) as Hnotes by (by rewrite Hdb).
  assert (Note.ID note = cuid env (serial (db w))) as Hid by (by rewrite Hnote).
  split_and!.
  - intros found. rewrite findAllNotes_steps. intros Hfound.
    apply and_then_Return in Hfound as [<- _].
    rewrite Hnotes. apply elem_of_app. right. by left.
  - apply findAllNotes_db.
  - rewrite deleteNote_db.
    assert (z_string_trim_min 1 (Note.ID note) = Some (Note.ID note)) as ->.
    { apply z_string_trim_min_Some. rewrite Hid, Htrim. split; [done|].
      specialize (Hne (serial (db w))).
      destruct (cuid env (serial (db w))); [done | simpl; lia]. }
    destruct (delete_first _ _) as [[gone ns]|] eqn:Hdel.
    + apply delete_first_Some in Hdel as (l1 & l2 & Hl & _ & _ & ->).
      simpl. apply (f_equal length) in Hl. rewrite Hnotes in Hl.
      rewrite !length_app in Hl. rewrite length_app. simpl in Hl. lia.
    + apply delete_first_None in Hdel. rewrite Forall_forall in Hdel.
      assert (note ∈ notes (db w1)) as Hin
        by (rewrite Hnotes; apply elem_of_app; right; by left).
      specialize (Hdel note Hin). by apply jsstring_eqb_false in Hdel.
Qed.

Lemma notes_are_shared_witness :
  let env := sample_env http_500 in
  let w := notes_world http_500 in
  let note := Note.mk (js "c11111") (js "Some title") (js "third") 1700000000003 in
  let w1 := snd (addNote env alice (js "third") w) in
  cuid_ok env ∧
  fst (addNote env alice (js "third") w) = Return note ∧
  (∀ found, fst (findAllNotes env bob w1) = Return found → note ∈ found) ∧
  length (notes (db (snd (deleteNote env bob (Note.ID note) w1)))) = length (notes (db w)).
Proof.
  intros env w note w1.
  pose proof (sample_cuid_ok http_500) as Hcuid.
  assert (fst (addNote env alice (js "third") w) = Return note) as Hret
    by (vm_compute; reflexivity).
  destruct (notes_are_shared env alice bob (js "third") note w Hcuid Hret)
    as (Hfound & _ & Hlen).
  split; [exact Hcuid | split; [exact Hret | split; [exact Hfound | exact Hlen]]].
Defined.

(** ** Errors *)

Lemma updateHost_bad_url env {T} `{ToJS T} ctx type (data : T) w i :
  find_info (db w) (AuthedContext.userId ctx) = Some i →
  parseURL env (WebhookInfo.hostURL i) = None →
  subscribed (db w) (AuthedContext.userId ctx) type = true →
  updateHost env (AuthedContext.upcast ctx) type data w
  = (Throw (InvalidURL (WebhookInfo.hostURL i)), w).
Proof.
  intros Hi Hurl Hsub. unfold AuthedContext.upcast. rewrite updateHost_run.
  fold (AuthedContext.userId ctx). unfold subscribed in Hsub. rewrite Hi in Hsub |- *.
  by rewrite Hsub, updateWebhook_run, Hurl.
Qed.

(** X16: a store can hold a URL that [new URL] rejects only if it was not
    written through [setWebhookURL].  On such a store, for a user who has
    enabled the event, a note procedure whose storage call completes throws
    the error of [new URL], after the storage call and without undoing it:
    the tables are as the storage call left them (the note that [addNote]
    created is stored, the note that [deleteNote] removed is gone) although
    the caller gets an error, and nothing is handed to [fetch]. *)
Theorem unparseable_url_fails_after_storage env ctx w i :
  find_info (db w) (AuthedContext.userId ctx) = Some i →
  parseURL env (WebhookInfo.hostURL i) = None →
  let error := InvalidURL (WebhookInfo.hostURL i) in
  let userID := AuthedContext.userId ctx in
  (∀ input body note w1,
     subscribed (db w) userID NOTE_CREATE = true →
     z_string_trim_min 1 input = Some body →
     (let* updatedOn := Date_now env in
      note_create env body (js "Some title") updatedOn) w = (Return note, w1) →
     fst (addNote env ctx input w) = Throw error ∧
     sent (addNote env ctx input) w = [] ∧
     db (snd (addNote env ctx input w)) = db w1) ∧
  (∀ input data note w1,
     subscribed (db w) userID NOTE_UPDATE = true →
     z_string_trim_min 2 (UpdateNoteInput.data input) = Some data →
     note_update (trim (UpdateNoteInput.ID input)) data w = (Return note, w1) →
     fst (updateNote env ctx input w) = Throw error ∧
     sent (updateNote env ctx input) w = [] ∧
     db (snd (updateNote env ctx input w)) = db w1) ∧
  (∀ found w1,
     subscribed (db w) userID NOTE_READ = true →
     note_findMany w = (Return found, w1) →
     fst (findAllNotes env ctx w) = Throw error ∧
     sent (findAllNotes env ctx) w = [] ∧
     db (snd (findAllNotes env ctx w)) = db w1) ∧
  (∀ input id note w1,
     subscribed (db w) userID NOTE_DELETE = true →
     z_string_trim_min 1 input = Some id →
     note_delete id w = (Return note, w1) →
     fst (deleteNote env ctx input w) = Throw error ∧
     sent (deleteNote env ctx input) w = [] ∧
     db (snd (deleteNote env ctx input w)) = db w1).
Proof.
  intros Hi Hurl error userID. split_and!.
  - intros input body note w1 Hsub Hparse Hstore.
    unfold bind, Date_now, note_create, db_call in Hstore. simpl in Hstore.
    destruct (stored_text env body) as [data|] eqn:Hdata; [|done].
    injection Hstore as <- <-.
    assert (∃ w', addNote env ctx input w = (Throw error, w') ∧
                  outbox w' = outbox w ∧
                  db w' = mkDB (notes (db w) ++
                                  [Note.mk (cuid env (serial (db w))) (js "Some title") data
                                     (clock env (ticks w))])
                            (webhookInfos (db w)) (webhookEvents (db w))
                            (S (serial (db w)))) as (w' & Hrun & Hout & Hdb).
    { eexists. rewrite addNote_steps, Hparse, Hdata. simpl.
      rewrite (updateHost_bad_url env ctx NOTE_CREATE _ _ i); [|done..].
      by split_and!. }
    rewrite Hrun. split_and!; [done | | done].
    apply sent_unchanged. by rewrite Hrun.
  - intros input data note w1 Hsub Hparse Hstore.
    unfold note_update, db_call in Hstore.
    destruct (update_first _ _ _) as [[note' ns]|] eqn:Hup; [|done].
    injection Hstore as <- <-.
    assert (updateNote env ctx input w = (Throw error, with_notes ns w)) as Hrun.
    { rewrite updateNote_steps, Hparse, Hup.
      rewrite (updateHost_bad_url env ctx NOTE_UPDATE _ _ i); [|done..]. done. }
    rewrite Hrun. split_and!; [done | | done].
    apply sent_unchanged. by rewrite Hrun.
  - intros found w1 Hsub Hstore.
    unfold note_findMany, db_call in Hstore. rewrite set_db_same in Hstore.
    injection Hstore as <- <-.
    assert (findAllNotes env ctx w = (Throw error, w)) as Hrun.
    { rewrite findAllNotes_steps.
      rewrite (updateHost_bad_url env ctx NOTE_READ _ _ i); [|done..]. done. }
    rewrite Hrun. split_and!; [done | | done].
    apply sent_unchanged. by rewrite Hrun.
  - intros input id note w1 Hsub Hparse Hstore.
    unfold note_delete, db_call in Hstore.
    destruct (delete_first _ _) as [[note' ns]|] eqn:Hdel; [|done].
    injection Hstore as <- <-.
    assert (deleteNote env ctx input w = (Throw error, with_notes ns w)) as Hrun.
    { rewrite deleteNote_steps, Hparse, Hdel.
      rewrite (updateHost_bad_url env ctx NOTE_DELETE _ _ i); [|done..]. done. }
    rewrite Hrun. split_and!; [done | | done].
    apply sent_unchanged. by rewrite Hrun.
Qed.

Lemma unparseable_url_fails_after_storage_witness :
  let env := sample_env http_200 in
  let w := broken_world in
  let i := WebhookInfo.mk (js "c") (js "alice") (js "example.com") in
  let storage :=
    (let* updatedOn := Date_now env in
     note_create env (js "lost?") (js "Some title") updatedOn) in
  let note := Note.mk (js "c1111") (js "Some title") (js "lost?") 1700000000000 in
  find_info (db w) (AuthedContext.userId alice) = Some i ∧
  parseURL env (WebhookInfo.hostURL i) = None ∧
  subscribed (db w) (AuthedContext.userId alice) NOTE_CREATE = true ∧
  z_string_trim_min 1 (js " lost? ") = Some (js "lost?") ∧
  storage w = (Return note, snd (storage w)) ∧
  map Note.data (notes (db (snd (storage w)))) = [js "old"; js "lost?"] ∧
  fst (addNote env alice (js " lost? ") w) = Throw (InvalidURL (js "example.com")) ∧
  sent (addNote env alice (js " lost? ")) w = [] ∧
  db (snd (addNote env alice (js " lost? ") w)) = db (snd (storage w)).
Proof.
  intros env w i storage note.
  assert (find_info (db w) (AuthedContext.userId alice) = Some i) as Hi by reflexivity.
  assert (parseURL env (WebhookInfo.hostURL i) = None) as Hurl by reflexivity.
  assert (subscribed (db w) (AuthedContext.userId alice) NOTE_CREATE = true) as Hsub
    by reflexivity.
  assert (z_string_trim_min 1 (js " lost? ") = Some (js "lost?")) as Hparse
    by (vm_compute; reflexivity).
  assert (storage w = (Return note, snd (storage w))) as Hstore
    by (vm_compute; reflexivity).
  assert (map Note.data (notes (db (snd (storage w)))) = [js "old"; js "lost?"]) as Hstored
    by (vm_compute; reflexivity).
  split; [exact Hi | split; [exact Hurl | split; [exact Hsub | split; [exact Hparse|]]]].
  split; [exact Hstore | split; [exact Hstored|]].
  exact (proj1 (unparseable_url_fails_after_storage env alice w i Hi Hurl)
           (js " lost? ") (js "lost?") note (snd (storage w)) Hsub Hparse Hstore).
Defined.



(** ** The client and the server *)

Lemma truthy_string_length s : HomeComponent.truthy_string s = true ↔ 1 ≤ length s.
Proof. destruct s; simpl; split; (done || lia). Qed.


(** The notifier throws nothing but the error of [new URL]. *)
Lemma updateHost_throws env {T} `{ToJS T} ctx type (data : T) w e :
  fst (updateHost env (AuthedContext.upcast ctx) type data w) = Throw e →
  ∃ url, e = InvalidURL url.
Proof.
  unfold AuthedContext.upcast. rewrite updateHost_run.
  destruct (find_info _ _) as [i|]; [|done]. destruct (existsb _ _); [|done].
  rewrite updateWebhook_run. destruct (parseURL _ _); [done|].
  simpl. intros [= <-]. by eexists.
Qed.

Lemma and_then_Throw {A} (r : Completion unit * World) (a : A) e :
  fst (and_then r a) = Throw e → fst r = Throw e.
Proof. destruct r as [[[]|e'] w']; simpl; [done | by intros [= ->]]. Qed.

(** X18: the guards of the client's buttons are the server's validation:
    "Save Note" sends exactly the texts that [addNote] accepts, the "Save"
    of an edit is enabled exactly for the texts that [updateNote] accepts,
    and what they send passes the schema unchanged.  "Set Webhook URL" sends
    only trimmed, non-empty strings, and the server still rejects those that
    [new URL] rejects. *)
Theorem client_guards_match_server env ctx w :
  (∀ note,
     match HomeComponent.saveNote_onClick note with
     | Some payload =>
         HomeComponent.saveNote_disabled false note = false ∧
         z_string_trim_min 1 payload = Some payload ∧
         fst (addNote env ctx payload w) ≠ Throw ZodError
     | None =>
         HomeComponent.saveNote_disabled false note = true ∧
         addNote env ctx note w = (Throw ZodError, w)
     end) ∧
  (∀ n text,
     let payload := HomeComponent.save_onClick n text in
     if HomeComponent.save_disabled false text
     then updateNote env ctx payload w = (Throw ZodError, w)
     else z_string_trim_min 2 (UpdateNoteInput.data payload)
          = Some (UpdateNoteInput.data payload) ∧
          fst (updateNote env ctx payload w) ≠ Throw ZodError) ∧
  (∀ url,
     match HomeComponent.setURL_onClick url with
     | Some payload =>
         payload = trim url ∧ payload ≠ [] ∧
         (fst (setWebhookURL env ctx payload w) = Throw ZodError
          ↔ parseURL env payload = None)
     | None => trim url = []
     end).
Proof.
  split_and!.
  - intros note. unfold HomeComponent.saveNote_onClick, HomeComponent.saveNote_disabled.
    destruct (HomeComponent.truthy_string (trim note)) eqn:Ht; simpl.
    + apply truthy_string_length in Ht.
      assert (z_string_trim_min 1 (trim note) = Some (trim note)) as Hparse.
      { rewrite z_string_trim_min_trim. by apply z_string_trim_min_Some. }
      split_and!; [done | done |].
      rewrite addNote_steps, Hparse.
      destruct (stored_text env (trim note)); [|done].
      simpl. intros Hthrow.
      apply and_then_Throw, updateHost_throws in Hthrow as [url Hurl]. done.
    + split; [done|]. rewrite addNote_steps.
      assert (z_string_trim_min 1 note = None) as ->; [|done].
      apply z_string_trim_min_None. destruct (trim note); [simpl; lia | done].
  - intros n text payload. unfold HomeComponent.save_disabled. simpl.
    destruct (Nat.ltb_spec (length (trim text)) 2) as [Hshort|Hlong].
    + rewrite updateNote_steps. simpl.
      assert (z_string_trim_min 2 (trim text) = None) as ->; [|done].
      rewrite z_string_trim_min_trim. by apply z_string_trim_min_None.
    + assert (z_string_trim_min 2 (trim text) = Some (trim text)) as Hparse.
      { rewrite z_string_trim_min_trim. by apply z_string_trim_min_Some. }
      split; [done|]. rewrite updateNote_steps. simpl. rewrite Hparse.
      destruct (update_first _ _ _) as [[note ns]|]; [|done].
      intros Hthrow.
      apply and_then_Throw, updateHost_throws in Hthrow as [url Hurl]. done.
  - intros url. unfold HomeComponent.setURL_onClick.
    destruct (HomeComponent.truthy_string (trim url)) eqn:Ht.
    + split_and!; [done | by destruct (trim url) |].
      rewrite setWebhookURL_run. destruct (parseURL env (trim url)); [|done].
      by destruct (update_first _ _ _) as [[i infos]|].
    + by destruct (trim url).
Qed.



(** ** How many settings a user can have *)

Lemma events_of_events_NoDup d i :
  unique_event_keys d → NoDup (map WebhookEvent.event (events_of d i)).
Proof.
  intros Hk. apply (NoDup_fmap_2_strong WebhookEvent.event).
  - intros e1 e2. by apply events_of_same_event.
  - unfold events_of. apply NoDup_filter. by apply (NoDup_fmap_1 event_key).
Qed.

Lemma EventType_NoDup_length (l : list EventType) : NoDup l → length l ≤ 4.
Proof.
  intros Hnd.
  apply (submseteq_length l [NOTE_CREATE; NOTE_READ; NOTE_UPDATE; NOTE_DELETE]).
  apply NoDup_submseteq; [done|]. intros x _.
  destruct x; [by left | right; by left | do 2 right; by left | do 3 right; by left].
Qed.

(** X20: where the event settings have unique keys, as they do in every
    world reached through the service, [getEvents] returns at most one row
    per event, hence at most four rows, however often the user has toggled
    the checkboxes. *)
Theorem getEvents_at_most_four env calls ctx :
  let w := perform_all env initial_world calls in
  ∃ events,
    getEvents ctx w = (Return events, w) ∧
    NoDup (map WebhookEvent.event events) ∧
    length events ≤ 4.
Proof.
  intros w. pose proof (ok_event_keys _ _ (reachable_store_ok env calls)) as Hk.
  fold w in Hk. rewrite getEvents_run.
  destruct (find_info _ _) as [i|].
  - exists (events_of (db w) i).
    pose proof (events_of_events_NoDup (db w) i Hk) as Hnd.
    split_and!; [done | done |].
    rewrite <- (length_map WebhookEvent.event). by apply EventType_NoDup_length.
  - exists []. split_and!; [done | constructor | simpl; lia].
Qed.
